(** * InverseSierpinskiCarpet: the carpet recursion, the per-cube transform
    and the interaction state of [script.js]

    JavaScript numbers are modelled twice.

    The program as a whole -- the [state] object, the calls into WebGL, the
    matrices -- is written over exact rationals ([Qc], canonical fractions
    with Leibniz equality).  What is stated over them is which expression
    the code evaluates, in which order and how often: statements that read
    the same when [+], [-], [*] and [/] are the rounded operations of
    binary64.

    Where the number that comes out matters -- the coordinates of the
    cubes, the rounded pivot, an angle summed over many frames -- the lines
    are transcribed once more in the module [Binary64], over the kernel's
    binary64 floats, and the statement is made there.

    [Math.cos], [Math.sin] and [Math.hypot] are variables of the section;
    nothing is assumed about the first two.  glMatrix computes in single
    precision and is not part of the sources; its operations are modelled
    over the rationals from their formulas. *)

From Stdlib Require Import ZArith QArith Qcanon Qround List Bool Lia Lqa.
From Stdlib Require Import Floats Sorting.Mergesort Orders Permutation.
Import ListNotations.

Local Open Scope Qc_scope.

(** ** Numbers *)

(** An integer literal. *)
Definition ofZ (z : Z) : Qc := Q2Qc (inject_Z z).

(** A decimal literal [n / d]. *)
Definition lit (n : Z) (d : positive) : Qc := Q2Qc (n # d).

(** [a < b] on numbers. *)
Definition ltb (a b : Qc) : bool := negb (Qle_bool b a).

(** [Math.max(a, b)] and [Math.min(a, b)]. *)
Definition Math_max (a b : Qc) : Qc := if ltb a b then b else a.
Definition Math_min (a b : Qc) : Qc := if ltb b a then b else a.

(** [Math.round(x)]: the nearest integer, halves going up. *)
Definition Math_round (x : Qc) : Qc := ofZ (Qfloor (x + lit 1 2)%Qc).

(** ** 4x4 matrices, stored column by column as glMatrix does *)

Record mat4 : Type := Mat4 {
  e0 : Qc; e1 : Qc; e2 : Qc; e3 : Qc;
  e4 : Qc; e5 : Qc; e6 : Qc; e7 : Qc;
  e8 : Qc; e9 : Qc; e10 : Qc; e11 : Qc;
  e12 : Qc; e13 : Qc; e14 : Qc; e15 : Qc
}.

Definition vec3 : Type := (Qc * Qc * Qc)%type.

(** Modelled from the spec: [mat4] is the glMatrix library, which the page
    loads next to [script.js] and which is not part of the sources.  The
    operations the spec names (identity, scale, left-multiply, translate,
    rotate about an axis) follow glMatrix's formulas on its column-major
    arrays: [out = a * b] for [multiply], and [a] times the elementary
    matrix on the right for the others. *)
Definition mat4_create : mat4 :=
  Mat4 1 0 0 0
       0 1 0 0
       0 0 1 0
       0 0 0 1.

(** Modelled from the spec: [mat4.identity(out)]. *)
Definition mat4_identity (out : mat4) : mat4 := mat4_create.

(** Modelled from the spec: [mat4.multiply(out, a, b)], the product
    [a * b]. *)
Definition mat4_multiply (a b : mat4) : mat4 :=
  let row (b0 b1 b2 b3 : Qc) :=
    (b0 * e0 a + b1 * e4 a + b2 * e8 a + b3 * e12 a,
     b0 * e1 a + b1 * e5 a + b2 * e9 a + b3 * e13 a,
     b0 * e2 a + b1 * e6 a + b2 * e10 a + b3 * e14 a,
     b0 * e3 a + b1 * e7 a + b2 * e11 a + b3 * e15 a) in
  let '(o0, o1, o2, o3) := row (e0 b) (e1 b) (e2 b) (e3 b) in
  let '(o4, o5, o6, o7) := row (e4 b) (e5 b) (e6 b) (e7 b) in
  let '(o8, o9, o10, o11) := row (e8 b) (e9 b) (e10 b) (e11 b) in
  let '(o12, o13, o14, o15) := row (e12 b) (e13 b) (e14 b) (e15 b) in
  Mat4 o0 o1 o2 o3 o4 o5 o6 o7 o8 o9 o10 o11 o12 o13 o14 o15.

(** Modelled from the spec: [mat4.scale(out, a, v)], [a] times the
    scaling by [v]. *)
Definition mat4_scale (a : mat4) (v : vec3) : mat4 :=
  let '(x, y, z) := v in
  Mat4 (e0 a * x) (e1 a * x) (e2 a * x) (e3 a * x)
       (e4 a * y) (e5 a * y) (e6 a * y) (e7 a * y)
       (e8 a * z) (e9 a * z) (e10 a * z) (e11 a * z)
       (e12 a) (e13 a) (e14 a) (e15 a).

(** Modelled from the spec: [mat4.translate(out, a, v)], [a] times the
    translation by [v]. *)
Definition mat4_translate (a : mat4) (v : vec3) : mat4 :=
  let '(x, y, z) := v in
  Mat4 (e0 a) (e1 a) (e2 a) (e3 a)
       (e4 a) (e5 a) (e6 a) (e7 a)
       (e8 a) (e9 a) (e10 a) (e11 a)
       (e0 a * x + e4 a * y + e8 a * z + e12 a)
       (e1 a * x + e5 a * y + e9 a * z + e13 a)
       (e2 a * x + e6 a * y + e10 a * z + e14 a)
       (e3 a * x + e7 a * y + e11 a * z + e15 a).

(** Modelled from the spec: [mat4.transpose(out, a)]. *)
Definition mat4_transpose (a : mat4) : mat4 :=
  Mat4 (e0 a) (e4 a) (e8 a) (e12 a)
       (e1 a) (e5 a) (e9 a) (e13 a)
       (e2 a) (e6 a) (e10 a) (e14 a)
       (e3 a) (e7 a) (e11 a) (e15 a).

(** The determinant as [mat4.invert] computes it, from the twelve 2x2
    minors [b00 .. b11]. *)
Definition mat4_determinant (a : mat4) : Qc :=
  let b00 := e0 a * e5 a - e1 a * e4 a in
  let b01 := e0 a * e6 a - e2 a * e4 a in
  let b02 := e0 a * e7 a - e3 a * e4 a in
  let b03 := e1 a * e6 a - e2 a * e5 a in
  let b04 := e1 a * e7 a - e3 a * e5 a in
  let b05 := e2 a * e7 a - e3 a * e6 a in
  let b06 := e8 a * e13 a - e9 a * e12 a in
  let b07 := e8 a * e14 a - e10 a * e12 a in
  let b08 := e8 a * e15 a - e11 a * e12 a in
  let b09 := e9 a * e14 a - e10 a * e13 a in
  let b10 := e9 a * e15 a - e11 a * e13 a in
  let b11 := e10 a * e15 a - e11 a * e14 a in
  b00 * b11 - b01 * b10 + b02 * b09 + b03 * b08 - b04 * b07 + b05 * b06.

(** Modelled from the spec: [mat4.invert(out, a)] of glMatrix, by
    cofactors; when the determinant is zero the call returns [null] and
    leaves [out] as it was. *)
Definition mat4_invert (out a : mat4) : mat4 :=
  let b00 := e0 a * e5 a - e1 a * e4 a in
  let b01 := e0 a * e6 a - e2 a * e4 a in
  let b02 := e0 a * e7 a - e3 a * e4 a in
  let b03 := e1 a * e6 a - e2 a * e5 a in
  let b04 := e1 a * e7 a - e3 a * e5 a in
  let b05 := e2 a * e7 a - e3 a * e6 a in
  let b06 := e8 a * e13 a - e9 a * e12 a in
  let b07 := e8 a * e14 a - e10 a * e12 a in
  let b08 := e8 a * e15 a - e11 a * e12 a in
  let b09 := e9 a * e14 a - e10 a * e13 a in
  let b10 := e9 a * e15 a - e11 a * e13 a in
  let b11 := e10 a * e15 a - e11 a * e14 a in
  let det := b00 * b11 - b01 * b10 + b02 * b09 + b03 * b08 - b04 * b07 + b05 * b06 in
  if Qc_eq_dec det 0 then out
  else
    let det := 1 / det in
    Mat4 ((e5 a * b11 - e6 a * b10 + e7 a * b09) * det)
         ((e2 a * b10 - e1 a * b11 - e3 a * b09) * det)
         ((e13 a * b05 - e14 a * b04 + e15 a * b03) * det)
         ((e10 a * b04 - e9 a * b05 - e11 a * b03) * det)
         ((e6 a * b08 - e4 a * b11 - e7 a * b07) * det)
         ((e0 a * b11 - e2 a * b08 + e3 a * b07) * det)
         ((e14 a * b02 - e12 a * b05 - e15 a * b01) * det)
         ((e8 a * b05 - e10 a * b02 + e11 a * b01) * det)
         ((e4 a * b10 - e5 a * b08 + e7 a * b06) * det)
         ((e1 a * b08 - e0 a * b10 - e3 a * b06) * det)
         ((e12 a * b04 - e13 a * b02 + e15 a * b00) * det)
         ((e9 a * b02 - e8 a * b04 - e11 a * b00) * det)
         ((e5 a * b07 - e4 a * b09 - e6 a * b06) * det)
         ((e0 a * b09 - e1 a * b07 + e2 a * b06) * det)
         ((e13 a * b01 - e12 a * b03 - e14 a * b00) * det)
         ((e8 a * b03 - e9 a * b01 + e10 a * b00) * det).

(** [glMatrix.EPSILON]. *)
Definition EPSILON : Qc := lit 1 1000000.

(** The elementary matrices, in the same storage order. *)
Definition Scale (v : vec3) : mat4 :=
  let '(x, y, z) := v in
  Mat4 x 0 0 0
       0 y 0 0
       0 0 z 0
       0 0 0 1.

Definition Translate (v : vec3) : mat4 :=
  let '(x, y, z) := v in
  Mat4 1 0 0 0
       0 1 0 0
       0 0 1 0
       x y z 1.

(** Sample instances of [Math.cos], [Math.sin] and [Math.hypot] for the
    worked examples at the end.  The theorems hold for every choice of the
    three functions; these agree with the real ones at angle [0] and on
    the coordinate axes. *)
Definition cos_sample (rad : Qc) : Qc := 1.
Definition sin_sample (rad : Qc) : Qc := 0.
Definition hypot_sample (x y z : Qc) : Qc := x * x + y * y + z * z.

(** [Math.cos] and [Math.sin] as a table of two angles: at [1] the values
    JavaScript prints for [Math.cos(1)] and [Math.sin(1)], sixteen digits
    each, and [1] and [0], their values at [0], everywhere else. *)
Definition cos_table (rad : Qc) : Qc :=
  if Qc_eq_dec rad 1 then lit 5403023058681398 10000000000000000 else 1.
Definition sin_table (rad : Qc) : Qc :=
  if Qc_eq_dec rad 1 then lit 8414709848078965 10000000000000000 else 0.

(** * The arithmetic of [script.js] in binary64

    The lines of [script.js] whose results depend on rounding, transcribed
    once more with the operations of IEEE 754 binary64 (the kernel's
    primitive floats), which is what a JavaScript number is: the carpet
    recursion of [drawCarpet], the vertex array of [createCubeVertices], the
    rounded pivot of [drawCube] and the angle update of [animate].  A decimal
    literal denotes the nearest binary64, as it does in JavaScript. *)

#[local] Set Warnings "-inexact-float".

Module Binary64.

Local Open Scope float_scope.

(** The rational number a finite binary64 stands for, [(-1)^s * m * 2^e].
    Both zeros stand for [0]; so do, for want of a number, the infinities
    and NaN, which no statement below meets. *)
Definition exact (f : float) : Q :=
  match Prim2SF f with
  | S754_finite s m e =>
      let n := if s then Z.neg m else Z.pos m in
      if (0 <=? e)%Z then inject_Z (n * 2 ^ e)
      else n # Pos.pow 2 (Z.to_pos (- e))
  | _ => 0%Q
  end.

Definition value (f : float) : Qc := Q2Qc (exact f).

(** [Math.round(x)]: the integer nearest to [x], halves going up, computed
    without rounding error; [-0] for a negative [x] that rounds to zero;
    zeros, infinities, NaN and numbers without a fractional part are
    returned as they are. *)
Definition Math_round (x : float) : float :=
  match Prim2SF x with
  | S754_finite s m e =>
      if (0 <=? e)%Z then x
      else
        let n := if s then Z.neg m else Z.pos m in
        let r := Z.shiftr (n + Z.shiftl 1 (- e - 1)) (- e) in
        if (r =? 0)%Z then (if s then neg_zero else zero)
        else if (r <? 0)%Z then - of_uint63 (Uint63.of_Z (- r))
        else of_uint63 (Uint63.of_Z r)
  | _ => x
  end.

(** Lines 361-368 of [drawCube]: [Math.round(v * 10000) / 10000]. *)
Definition round4 (v : float) : float := Math_round (v * 10000) / 10000.

Definition createCubeVertices (x y z size : float) : list float :=
  let d := size / 2 in
  [ (* Front face *)
    x-d; y-d; z+d;
    x+d; y-d; z+d;
    x+d; y+d; z+d;
    x-d; y-d; z+d;
    x+d; y+d; z+d;
    x-d; y+d; z+d;
    (* Back face *)
    x-d; y-d; z-d;
    x+d; y-d; z-d;
    x+d; y+d; z-d;
    x-d; y-d; z-d;
    x+d; y+d; z-d;
    x-d; y+d; z-d;
    (* Top face *)
    x-d; y+d; z+d;
    x+d; y+d; z+d;
    x+d; y+d; z-d;
    x-d; y+d; z+d;
    x+d; y+d; z-d;
    x-d; y+d; z-d;
    (* Bottom face *)
    x-d; y-d; z+d;
    x+d; y-d; z+d;
    x+d; y-d; z-d;
    x-d; y-d; z+d;
    x+d; y-d; z-d;
    x-d; y-d; z-d;
    (* Right face *)
    x+d; y-d; z+d;
    x+d; y-d; z-d;
    x+d; y+d; z-d;
    x+d; y-d; z+d;
    x+d; y+d; z-d;
    x+d; y+d; z+d;
    (* Left face *)
    x-d; y-d; z+d;
    x-d; y-d; z-d;
    x-d; y+d; z-d;
    x-d; y-d; z+d;
    x-d; y+d; z-d;
    x-d; y+d; z+d ].

Definition vec3 : Type := (float * float * float)%type.

(** Lines 360-373 of [drawCube]: the corner read at indices 0-2, the corner
    read at indices 24-26, each coordinate rounded to four decimals, and
    their midpoint. *)
Definition cubeCenter (vertices : list float) : option vec3 :=
  match nth_error vertices 0, nth_error vertices 1, nth_error vertices 2,
        nth_error vertices 24, nth_error vertices 25, nth_error vertices 26 with
  | Some v0, Some v1, Some v2, Some v24, Some v25, Some v26 =>
      (* the front bottom left vertex *)
      let x1 := round4 v0 in
      let y1 := round4 v1 in
      let z1 := round4 v2 in
      (* the back top right vertex *)
      let x2 := round4 v24 in
      let y2 := round4 v25 in
      let z2 := round4 v26 in
      let centerX := (x1 + x2) / 2 in
      let centerY := (y1 + y2) / 2 in
      let centerZ := (z1 + z2) / 2 in
      Some (centerX, centerY, centerZ)
  | _, _, _, _, _, _ => None
  end.

(** The four arguments [drawCarpet] hands to [createCubeVertices]. *)
Record placement : Type := mkPlacement {
  centerX : float;
  centerY : float;
  centerZ : float;
  size : float
}.

Definition center (p : placement) : vec3 := (centerX p, centerY p, centerZ p).

Definition vertices_of (p : placement) : list float :=
  createCubeVertices (centerX p) (centerY p) (centerZ p) (size p).

(** Lines 404-430, [drawCarpet]: the same two loops and the same recursion,
    collecting the placements instead of drawing them.  The loop variables
    are JavaScript numbers too. *)
Fixpoint carpetCubes (x y size : float) (iterations : nat) {struct iterations}
  : list placement :=
  let newSize := size / 3 in
  flat_map (fun i =>
    flat_map (fun j =>
      let newX := x + i * newSize in
      let newY := y + j * newSize in
      if (i =? 1) && (j =? 1) then
        [mkPlacement (newX + newSize / 2) (newY + newSize / 2)
                     (newSize / 2) newSize]
      else
        match iterations with
        | S (S _ as iterations') => carpetCubes newX newY newSize iterations'
        | _ => []
        end) [0; 1; 2]) [0; 1; 2].

(** The cubes of the page: line 442, [drawCarpet(-1, -1, state.canvasSize,
    slider.value)], with the [canvasSize] of line 126, which nothing
    changes. *)
Definition page (iterations : nat) : list placement :=
  carpetCubes (-1) (-1) 2 iterations.

(** The nine cells of one level: the cube of the centre cell, and what the
    recursion contributes for the cell [(i, j)]. *)
Definition center_cube (x y sz : float) : placement :=
  mkPlacement (x + 1 * (sz / 3) + sz / 3 / 2) (y + 1 * (sz / 3) + sz / 3 / 2)
              (sz / 3 / 2) (sz / 3).

Definition sub_carpet (x y sz : float) (iterations : nat) (i j : float)
  : list placement :=
  match iterations with
  | S (S _ as iterations') =>
      carpetCubes (x + i * (sz / 3)) (y + j * (sz / 3)) (sz / 3) iterations'
  | _ => []
  end.

(** [size] divided by three [k] times, each quotient rounded. *)
Definition thirds (k : nat) (size : float) : float :=
  Nat.iter k (fun s => s / 3) size.

(** One axis of [drawCarpet]: the centre coordinate and the side of every
    cube whose cell lies, along this axis, in the stretch that starts at
    [x] and is [size] long. *)
Fixpoint axis (x size : float) (iterations : nat) {struct iterations}
  : list (float * float) :=
  let newSize := size / 3 in
  (x + 1 * newSize + newSize / 2, newSize)
  :: match iterations with
     | S (S _ as iterations') =>
         flat_map (fun i => axis (x + i * newSize) newSize iterations')
                  [0; 1; 2]
     | _ => []
     end.

(** The pivot [drawCube] computes for the vertices of a placement, and its
    coordinates one by one. *)
Definition pivot (p : placement) : vec3 :=
  let d := size p / 2 in
  ((round4 (centerX p - d) + round4 (centerX p + d)) / 2,
   (round4 (centerY p - d) + round4 (centerY p + d)) / 2,
   (round4 (centerZ p + d) + round4 (centerZ p - d)) / 2).

Definition pivot_xy (c s : float) : float :=
  (round4 (c - s / 2) + round4 (c + s / 2)) / 2.

Definition pivot_z (c s : float) : float :=
  (round4 (c + s / 2) + round4 (c - s / 2)) / 2.

(** Lines 438-440 of [animate] on one axis, [angle += speed / 200], and the
    angle after [n] frames at a constant speed. *)
Definition advance (angle speed : float) : float := angle + speed / 200.

Fixpoint ticks (n : nat) (angle speed : float) : float :=
  match n with
  | O => angle
  | S n' => ticks n' (advance angle speed) speed
  end.

(** [Math.max(a, b)] and [Math.min(a, b)] on numbers neither of which is
    NaN. *)
Definition Math_max (a b : float) : float := if a <? b then b else a.
Definition Math_min (a b : float) : float := if b <? a then b else a.

(** Lines 517-529 of [onCanvasWheel]: what [state.canvasScale] becomes on
    an event with [event.deltaY = deltaY], and what a run of events makes
    of it. *)
Definition onCanvasWheel (deltaY canvasScale : float) : float :=
  let zoomSensitivity := 0.1 in
  let canvasScale :=
    if 0 <? deltaY then canvasScale - zoomSensitivity
    else if deltaY <? 0 then canvasScale + zoomSensitivity
    else canvasScale in
  Math_min (Math_max canvasScale 0.1) 10.

Definition wheels (deltas : list float) (canvasScale : float) : float :=
  fold_left (fun scale deltaY => onCanvasWheel deltaY scale) deltas canvasScale.

(** The numbers of a point. *)
Definition values (c : vec3) : Qc * Qc * Qc :=
  let '(x, y, z) := c in (value x, value y, value z).

(** Decidable checks on the numbers of binary64 values: [|a - b| <= eps]
    for finite [a] and [b]; a cube of side [s] centred at [c] along an axis
    has a positive side and lies between [-1] and [1]. *)
Definition within (eps : Q) (a b : float) : bool :=
  is_finite a && is_finite b
  && Qle_bool (exact a - exact b) eps && Qle_bool (exact b - exact a) eps.

Definition inside (c s : float) : bool :=
  let h := (exact s * (1 # 2))%Q in
  Qle_bool 0 (exact s) && negb (Qeq_bool 0 (exact s))
  && Qle_bool (- (1)) (exact c - h) && Qle_bool (exact c + h) 1.

Definition axis_check (f : float -> float -> bool) (iterations : nat) : bool :=
  forallb (fun e => f (fst e) (snd e)) (axis (-1) 2 iterations).

(** [floor (v * 2^20)] for the number [v] of a binary64, by shifting its
    mantissa, and the three of a point packed into one integer. *)
Definition grid (a : float) : Z :=
  match Prim2SF a with
  | S754_finite s m e => Z.shiftl (if s then Z.neg m else Z.pos m) (e + 20)
  | _ => 0%Z
  end.

Definition grid_key (c : vec3) : Z :=
  let '(x, y, z) := c in
  ((grid x + 2 ^ 21) * 2 ^ 22 + (grid y + 2 ^ 21)) * 2 ^ 22 + grid z.

End Binary64.

(** Merge sort on integers, from the Standard Library, and the test that a
    list of integers is strictly increasing. *)
Module ZOrder := OTF_to_TTLB BinInt.Z.
Module ZSort := Sort ZOrder.

Fixpoint increasing (l : list Z) : bool :=
  match l with
  | a :: (b :: _) as t => (a <? b)%Z && increasing t
  | _ => true
  end.

Section Script.

(** [Math.cos], [Math.sin] and [Math.hypot]. *)
Variables Math_cos Math_sin : Qc -> Qc.
Variable Math_hypot : Qc -> Qc -> Qc -> Qc.

Definition RotX (rad : Qc) : mat4 :=
  let s := Math_sin rad in
  let c := Math_cos rad in
  Mat4 1 0 0 0
       0 c s 0
       0 (- s) c 0
       0 0 0 1.

Definition RotY (rad : Qc) : mat4 :=
  let s := Math_sin rad in
  let c := Math_cos rad in
  Mat4 c 0 (- s) 0
       0 1 0 0
       s 0 c 0
       0 0 0 1.

Definition RotZ (rad : Qc) : mat4 :=
  let s := Math_sin rad in
  let c := Math_cos rad in
  Mat4 c s 0 0
       (- s) c 0 0
       0 0 1 0
       0 0 0 1.

(** Modelled from the spec: [mat4.rotateX(out, a, rad)] of glMatrix, which
    is not part of the sources: [a] times the rotation about X. *)
Definition mat4_rotateX (a : mat4) (rad : Qc) : mat4 :=
  let s := Math_sin rad in
  let c := Math_cos rad in
  Mat4 (e0 a) (e1 a) (e2 a) (e3 a)
       (e4 a * c + e8 a * s) (e5 a * c + e9 a * s)
       (e6 a * c + e10 a * s) (e7 a * c + e11 a * s)
       (e8 a * c - e4 a * s) (e9 a * c - e5 a * s)
       (e10 a * c - e6 a * s) (e11 a * c - e7 a * s)
       (e12 a) (e13 a) (e14 a) (e15 a).

(** Modelled from the spec: [mat4.rotateY(out, a, rad)]. *)
Definition mat4_rotateY (a : mat4) (rad : Qc) : mat4 :=
  let s := Math_sin rad in
  let c := Math_cos rad in
  Mat4 (e0 a * c - e8 a * s) (e1 a * c - e9 a * s)
       (e2 a * c - e10 a * s) (e3 a * c - e11 a * s)
       (e4 a) (e5 a) (e6 a) (e7 a)
       (e0 a * s + e8 a * c) (e1 a * s + e9 a * c)
       (e2 a * s + e10 a * c) (e3 a * s + e11 a * c)
       (e12 a) (e13 a) (e14 a) (e15 a).

(** Modelled from the spec: [mat4.rotateZ(out, a, rad)]. *)
Definition mat4_rotateZ (a : mat4) (rad : Qc) : mat4 :=
  let s := Math_sin rad in
  let c := Math_cos rad in
  Mat4 (e0 a * c + e4 a * s) (e1 a * c + e5 a * s)
       (e2 a * c + e6 a * s) (e3 a * c + e7 a * s)
       (e4 a * c - e0 a * s) (e5 a * c - e1 a * s)
       (e6 a * c - e2 a * s) (e7 a * c - e3 a * s)
       (e8 a) (e9 a) (e10 a) (e11 a)
       (e12 a) (e13 a) (e14 a) (e15 a).

(** Modelled from the spec: [mat4.rotate(out, a, rad, axis)] of glMatrix,
    [a] times the rotation about the normalised axis; an axis shorter than
    [EPSILON] makes the call return [null] and leave [out] as it was. *)
Definition mat4_rotate (out a : mat4) (rad : Qc) (axis : vec3) : mat4 :=
  let '(x, y, z) := axis in
  let len := Math_hypot x y z in
  if ltb len EPSILON then out
  else
    let len := 1 / len in
    let x := x * len in
    let y := y * len in
    let z := z * len in
    let s := Math_sin rad in
    let c := Math_cos rad in
    let t := 1 - c in
    let b00 := x * x * t + c in
    let b01 := y * x * t + z * s in
    let b02 := z * x * t - y * s in
    let b10 := x * y * t - z * s in
    let b11 := y * y * t + c in
    let b12 := z * y * t + x * s in
    let b20 := x * z * t + y * s in
    let b21 := y * z * t - x * s in
    let b22 := z * z * t + c in
    Mat4 (e0 a * b00 + e4 a * b01 + e8 a * b02)
         (e1 a * b00 + e5 a * b01 + e9 a * b02)
         (e2 a * b00 + e6 a * b01 + e10 a * b02)
         (e3 a * b00 + e7 a * b01 + e11 a * b02)
         (e0 a * b10 + e4 a * b11 + e8 a * b12)
         (e1 a * b10 + e5 a * b11 + e9 a * b12)
         (e2 a * b10 + e6 a * b11 + e10 a * b12)
         (e3 a * b10 + e7 a * b11 + e11 a * b12)
         (e0 a * b20 + e4 a * b21 + e8 a * b22)
         (e1 a * b20 + e5 a * b21 + e9 a * b22)
         (e2 a * b20 + e6 a * b21 + e10 a * b22)
         (e3 a * b20 + e7 a * b21 + e11 a * b22)
         (e12 a) (e13 a) (e14 a) (e15 a).

(** ** The [state] object and the rest of the page's mutable world *)

Record State : Type := mkState {
  canvasSize : Qc;
  xRotationSpeed : Qc;
  yRotationSpeed : Qc;
  zRotationSpeed : Qc;
  xRotationAngle : Qc;
  yRotationAngle : Qc;
  zRotationAngle : Qc;
  mouseDown : bool;
  lastMouseX : option Qc;   (* [None] is [null] *)
  lastMouseY : option Qc;
  dragSensitivity : Qc;
  canvasRotationMatrix : mat4;
  canvasScale : Qc
}.

Definition initial_state : State :=
  mkState (ofZ 2) 0 0 0 0 0 0 false None None (lit 1 100) mat4_create 1.

Inductive texture_unit : Type := TEXTURE0 | TEXTURE1.
Inductive gl_texture : Type := texture | normalMap.
Inductive gl_buffer : Type := vertexBuffer | textureCoordBuffer.
Inductive attribute : Type := aPosition | aTextureCoord.
Inductive uniform : Type :=
  uModelMatrix | uViewMatrix | uProjectionMatrix | uNormalMatrix.
Inductive axis : Type := axisX | axisY | axisZ.

(** What a run leaves behind, in program order: the calls into WebGL and
    the browser, and the writes of [animate] to the three spin angles (the
    only fields of [state] the render loop itself changes), so that their
    place among the calls can be stated. *)
Inductive event : Type :=
| gl_clearColor (r g b a : Qc)
| gl_clear (color_buffer_bit depth_buffer_bit : bool)
| gl_activeTexture (u : texture_unit)
| gl_bindTexture (t : gl_texture)
| gl_bindBuffer (b : gl_buffer)
| gl_bufferData (data : list Qc)
| gl_enableVertexAttribArray (a : attribute)
| gl_vertexAttribPointer (a : attribute) (size : Z)
| gl_uniformMatrix4fv (u : uniform) (m : mat4)
| gl_drawArrays (first count : Qc)
| write_rotationAngle (ax : axis) (v : Qc)
| requestAnimationFrame
| preventDefault.

(** [state], the global [modelMatrix], the values of the four sliders and
    the events so far (latest last). *)
Record World : Type := mkWorld {
  state : State;
  modelMatrix : mat4;
  stepSlider : nat;          (* [slider.value], a whole number of steps *)
  xRotationSlider : Qc;
  yRotationSlider : Qc;
  zRotationSlider : Qc;
  trace : list event
}.

(** [viewMatrix] and [projectionMatrix] are created once and never changed. *)
Definition viewMatrix : mat4 := mat4_create.
Definition projectionMatrix : mat4 := mat4_create.

Definition initial_world (steps : nat) : World :=
  mkWorld initial_state mat4_create steps 0 0 0 [].

(** ** A state monad with failure

    [None] stands for a run that reads past the end of an array: JavaScript
    then computes with [undefined] and [NaN], which the rationals do not
    have. *)
Definition M (A : Type) : Type := World -> option (A * World).

Definition ret {A} (a : A) : M A := fun w => Some (a, w).

Definition bind {A B} (c : M A) (k : A -> M B) : M B :=
  fun w => match c w with
           | Some (a, w') => k a w'
           | None => None
           end.

Definition fail {A} : M A := fun _ => None.

Notation "x <- c1 ;; c2" := (bind c1 (fun x => c2))
  (at level 61, c1 at next level, right associativity).
Notation "c1 ;; c2" := (bind c1 (fun _ => c2))
  (at level 61, right associativity).

Definition get_state : M State := fun w => Some (state w, w).

Definition put_state (s : State) : M unit := fun w =>
  Some (tt, mkWorld s (modelMatrix w) (stepSlider w) (xRotationSlider w)
                    (yRotationSlider w) (zRotationSlider w) (trace w)).

Definition get_modelMatrix : M mat4 := fun w => Some (modelMatrix w, w).

Definition put_modelMatrix (m : mat4) : M unit := fun w =>
  Some (tt, mkWorld (state w) m (stepSlider w) (xRotationSlider w)
                    (yRotationSlider w) (zRotationSlider w) (trace w)).

Definition emit (e : event) : M unit := fun w =>
  Some (tt, mkWorld (state w) (modelMatrix w) (stepSlider w) (xRotationSlider w)
                    (yRotationSlider w) (zRotationSlider w) (trace w ++ [e])).

Definition read {A} (f : World -> A) : M A := fun w => Some (f w, w).

(** [a[i]]: [None] past the end of the array. *)
Definition index (a : list Qc) (i : nat) : option Qc := nth_error a i.

Definition lift {A} (o : option A) : M A :=
  match o with
  | Some a => ret a
  | None => fail
  end.

(** [for (let i = 0; i < 3; i++)] runs its body on [0], [1], [2]. *)
Fixpoint for_ {A} (l : list A) (body : A -> M unit) : M unit :=
  match l with
  | [] => ret tt
  | a :: l' => body a ;; for_ l' body
  end.

(** Field updates of [state]. *)
Definition set_rotationAngles (x y z : Qc) (s : State) : State :=
  mkState (canvasSize s) (xRotationSpeed s) (yRotationSpeed s) (zRotationSpeed s)
          x y z (mouseDown s) (lastMouseX s) (lastMouseY s)
          (dragSensitivity s) (canvasRotationMatrix s) (canvasScale s).

Definition set_rotationSpeeds (x y z : Qc) (s : State) : State :=
  mkState (canvasSize s) x y z
          (xRotationAngle s) (yRotationAngle s) (zRotationAngle s)
          (mouseDown s) (lastMouseX s) (lastMouseY s)
          (dragSensitivity s) (canvasRotationMatrix s) (canvasScale s).

Definition set_mouseDown (b : bool) (s : State) : State :=
  mkState (canvasSize s) (xRotationSpeed s) (yRotationSpeed s) (zRotationSpeed s)
          (xRotationAngle s) (yRotationAngle s) (zRotationAngle s)
          b (lastMouseX s) (lastMouseY s)
          (dragSensitivity s) (canvasRotationMatrix s) (canvasScale s).

Definition set_lastMouse (x y : option Qc) (s : State) : State :=
  mkState (canvasSize s) (xRotationSpeed s) (yRotationSpeed s) (zRotationSpeed s)
          (xRotationAngle s) (yRotationAngle s) (zRotationAngle s)
          (mouseDown s) x y
          (dragSensitivity s) (canvasRotationMatrix s) (canvasScale s).

Definition set_canvasRotationMatrix (m : mat4) (s : State) : State :=
  mkState (canvasSize s) (xRotationSpeed s) (yRotationSpeed s) (zRotationSpeed s)
          (xRotationAngle s) (yRotationAngle s) (zRotationAngle s)
          (mouseDown s) (lastMouseX s) (lastMouseY s)
          (dragSensitivity s) m (canvasScale s).

Definition set_canvasScale (v : Qc) (s : State) : State :=
  mkState (canvasSize s) (xRotationSpeed s) (yRotationSpeed s) (zRotationSpeed s)
          (xRotationAngle s) (yRotationAngle s) (zRotationAngle s)
          (mouseDown s) (lastMouseX s) (lastMouseY s)
          (dragSensitivity s) (canvasRotationMatrix s) v.

(** The page after ten wheel events that zoom in and before the next
    frame: the zoom factor is [2], and [modelMatrix] is still the identity
    an unzoomed, unrotated frame left. *)
Definition zoomed_world : World :=
  mkWorld (set_canvasScale (ofZ 2) initial_state) mat4_create 1 0 0 0 [].

(** The page with the button held down at [(0, 0)], and the page with the
    X slider at [200]. *)
Definition pressed_world : World :=
  mkWorld (set_lastMouse (Some 0) (Some 0) (set_mouseDown true initial_state))
          mat4_create 1 0 0 0 [].

Definition spinning_world : World :=
  mkWorld (set_rotationSpeeds (ofZ 200) 0 0 initial_state)
          mat4_create 1 (ofZ 200) 0 0 [].

(** ** Coordinates and vertices *)

Definition createCubeTextureCoordinates : list Qc :=
  [ (* Front face *)
    0; 0;  1; 0;  1; 1;  0; 0;  1; 1;  0; 1;
    (* Back face *)
    0; 0;  1; 0;  1; 1;  0; 0;  1; 1;  0; 1;
    (* Top face *)
    0; 0;  1; 0;  1; 1;  0; 0;  1; 1;  0; 1;
    (* Bottom face *)
    0; 0;  1; 0;  1; 1;  0; 0;  1; 1;  0; 1;
    (* Right face *)
    0; 0;  1; 0;  1; 1;  0; 0;  1; 1;  0; 1;
    (* Left face *)
    0; 0;  1; 0;  1; 1;  0; 0;  1; 1;  0; 1 ].

Definition createCubeVertices (x y z size : Qc) : list Qc :=
  let d := size / ofZ 2 in
  [ (* Front face *)
    x-d; y-d; z+d;
    x+d; y-d; z+d;
    x+d; y+d; z+d;
    x-d; y-d; z+d;
    x+d; y+d; z+d;
    x-d; y+d; z+d;
    (* Back face *)
    x-d; y-d; z-d;
    x+d; y-d; z-d;
    x+d; y+d; z-d;
    x-d; y-d; z-d;
    x+d; y+d; z-d;
    x-d; y+d; z-d;
    (* Top face *)
    x-d; y+d; z+d;
    x+d; y+d; z+d;
    x+d; y+d; z-d;
    x-d; y+d; z+d;
    x+d; y+d; z-d;
    x-d; y+d; z-d;
    (* Bottom face *)
    x-d; y-d; z+d;
    x+d; y-d; z+d;
    x+d; y-d; z-d;
    x-d; y-d; z+d;
    x+d; y-d; z-d;
    x-d; y-d; z-d;
    (* Right face *)
    x+d; y-d; z+d;
    x+d; y-d; z-d;
    x+d; y+d; z-d;
    x+d; y-d; z+d;
    x+d; y+d; z-d;
    x+d; y+d; z+d;
    (* Left face *)
    x-d; y-d; z+d;
    x-d; y-d; z-d;
    x-d; y+d; z-d;
    x-d; y-d; z+d;
    x-d; y+d; z-d;
    x-d; y+d; z+d ].

(** ** Drawing functions *)

(** Lines 360-373 of [drawCube]: the corner read at indices 0-2, the corner
    read at indices 24-26, each coordinate rounded to four decimals, and
    their midpoint.  The product and the quotient are exact here; what they
    are in binary64 is [Binary64.round4]. *)
Definition round4 (v : Qc) : Qc := Math_round (v * ofZ 10000) / ofZ 10000.

Definition cubeCenter (vertices : list Qc) : option vec3 :=
  match index vertices 0, index vertices 1, index vertices 2,
        index vertices 24, index vertices 25, index vertices 26 with
  | Some v0, Some v1, Some v2, Some v24, Some v25, Some v26 =>
      (* the front bottom left vertex *)
      let x1 := round4 v0 in
      let y1 := round4 v1 in
      let z1 := round4 v2 in
      (* the back top right vertex *)
      let x2 := round4 v24 in
      let y2 := round4 v25 in
      let z2 := round4 v26 in
      let centerX := (x1 + x2) / ofZ 2 in
      let centerY := (y1 + y2) / ofZ 2 in
      let centerZ := (z1 + z2) / ofZ 2 in
      Some (centerX, centerY, centerZ)
  | _, _, _, _, _, _ => None
  end.

(** Lines 375-393 of [drawCube]: the model matrix, rebuilt from the
    identity. *)
Definition computeModelMatrix (s : State) (center : vec3) : mat4 :=
  let '(centerX, centerY, centerZ) := center in
  let m := mat4_create in
  let m := mat4_scale m (canvasScale s, canvasScale s, canvasScale s) in
  let m := mat4_multiply (canvasRotationMatrix s) m in
  let m := mat4_translate m (centerX, centerY, centerZ) in
  let m := mat4_rotateX m (xRotationAngle s) in
  let m := mat4_rotateY m (yRotationAngle s) in
  let m := mat4_rotateZ m (zRotationAngle s) in
  mat4_translate m (- centerX, - centerY, - centerZ).

(** [drawCube]; the look-ups of attribute and uniform locations change
    nothing and are not recorded. *)
Definition drawCube (vertices : list Qc) : M unit :=
  let textureCoordinates := createCubeTextureCoordinates in
  emit (gl_activeTexture TEXTURE1) ;;
  emit (gl_bindTexture normalMap) ;;
  emit (gl_activeTexture TEXTURE0) ;;
  emit (gl_bindTexture texture) ;;
  emit (gl_bindBuffer vertexBuffer) ;;
  emit (gl_bufferData vertices) ;;
  emit (gl_enableVertexAttribArray aPosition) ;;
  emit (gl_vertexAttribPointer aPosition 3) ;;
  emit (gl_enableVertexAttribArray aTextureCoord) ;;
  emit (gl_bindBuffer textureCoordBuffer) ;;
  emit (gl_bufferData textureCoordinates) ;;
  emit (gl_vertexAttribPointer aTextureCoord 2) ;;
  (* Calculate and set the normal matrix *)
  m <- get_modelMatrix ;;
  let normalMatrix := mat4_create in
  let normalMatrix := mat4_invert normalMatrix m in
  let normalMatrix := mat4_transpose normalMatrix in
  emit (gl_uniformMatrix4fv uNormalMatrix normalMatrix) ;;
  center <- lift (cubeCenter vertices) ;;
  s <- get_state ;;
  put_modelMatrix (computeModelMatrix s center) ;;
  (* Send matrices to the GPU *)
  m <- get_modelMatrix ;;
  emit (gl_uniformMatrix4fv uModelMatrix m) ;;
  emit (gl_uniformMatrix4fv uViewMatrix viewMatrix) ;;
  emit (gl_uniformMatrix4fv uProjectionMatrix projectionMatrix) ;;
  emit (gl_drawArrays 0 (ofZ (Z.of_nat (length vertices)) / ofZ 3)).

(** [iterations > 1] and [iterations - 1] on a natural number: the match
    takes the branch exactly when [1 < iterations] and recurses on the
    predecessor (see [drawCarpet_unfold]). *)
Fixpoint drawCarpet (x y size : Qc) (iterations : nat) {struct iterations} : M unit :=
  let newSize := size / ofZ 3 in
  for_ [0; 1; 2]%Z (fun i =>
    for_ [0; 1; 2]%Z (fun j =>
      let newX := x + ofZ i * newSize in
      let newY := y + ofZ j * newSize in
      if (i =? 1)%Z && (j =? 1)%Z then
        let vertices :=
          createCubeVertices (newX + newSize / ofZ 2) (newY + newSize / ofZ 2)
                             (newSize / ofZ 2) newSize in
        drawCube vertices
      else
        match iterations with
        | S (S _ as iterations') => drawCarpet newX newY newSize iterations'
        | _ => ret tt
        end)).

Definition animate : M unit :=
  emit (gl_clearColor 0 0 0 1) ;;
  emit (gl_clear true true) ;;
  s <- get_state ;;
  let x := xRotationAngle s + xRotationSpeed s / ofZ 200 in
  put_state (set_rotationAngles x (yRotationAngle s) (zRotationAngle s) s) ;;
  emit (write_rotationAngle axisX x) ;;
  s <- get_state ;;
  let y := yRotationAngle s + yRotationSpeed s / ofZ 200 in
  put_state (set_rotationAngles (xRotationAngle s) y (zRotationAngle s) s) ;;
  emit (write_rotationAngle axisY y) ;;
  s <- get_state ;;
  let z := zRotationAngle s + zRotationSpeed s / ofZ 200 in
  put_state (set_rotationAngles (xRotationAngle s) (yRotationAngle s) z s) ;;
  emit (write_rotationAngle axisZ z) ;;
  s <- get_state ;;
  iterations <- read stepSlider ;;
  drawCarpet (- (1)) (- (1)) (canvasSize s) iterations ;;
  emit requestAnimationFrame.

(** The browser calls [animate] again for every frame it was asked for.
    What the sums of the angles come to in binary64 is [Binary64.ticks]. *)
Fixpoint ticks (n : nat) : M unit :=
  match n with
  | O => ret tt
  | S n' => animate ;; ticks n'
  end.

Definition redraw : M unit :=
  s <- get_state ;;
  x <- read xRotationSlider ;;
  y <- read yRotationSlider ;;
  z <- read zRotationSlider ;;
  put_state (set_rotationSpeeds x y z s).

(** ** Event handling *)

Definition handleMouseDown (clientX clientY : Qc) : M unit :=
  s <- get_state ;;
  put_state (set_lastMouse (Some clientX) (Some clientY) (set_mouseDown true s)).

Definition handleMouseUp : M unit :=
  s <- get_state ;;
  put_state (set_mouseDown false s).

(** A [null] operand of [-] counts as [0]. *)
Definition or_null (v : option Qc) : Qc :=
  match v with Some q => q | None => 0 end.

Definition handleMouseMove (clientX clientY : Qc) : M unit :=
  s <- get_state ;;
  if negb (mouseDown s) then ret tt
  else
    let newX := clientX in
    let newY := clientY in
    let deltaX := newX - or_null (lastMouseX s) in
    let deltaY := newY - or_null (lastMouseY s) in
    let newRotationMatrix := mat4_create in
    let newRotationMatrix := mat4_identity newRotationMatrix in
    let newRotationMatrix :=
      mat4_rotate newRotationMatrix newRotationMatrix
                  (dragSensitivity s * deltaX) (0, 1, 0) in
    let newRotationMatrix :=
      mat4_rotate newRotationMatrix newRotationMatrix
                  (dragSensitivity s * deltaY) (1, 0, 0) in
    let s := set_canvasRotationMatrix
               (mat4_multiply newRotationMatrix (canvasRotationMatrix s)) s in
    put_state (set_lastMouse (Some newX) (Some newY) s).

Definition onCanvasWheel (deltaY : Qc) : M unit :=
  emit preventDefault ;;
  let zoomSensitivity := lit 1 10 in
  s <- get_state ;;
  let s :=
    if ltb 0 deltaY then set_canvasScale (canvasScale s - zoomSensitivity) s
    else if ltb deltaY 0 then set_canvasScale (canvasScale s + zoomSensitivity) s
    else s in
  put_state (set_canvasScale
               (Math_min (Math_max (canvasScale s) (lit 1 10)) (ofZ 10)) s).

(** A run of wheel events, one [deltaY] each. *)
Definition wheels (deltas : list Qc) : M unit := for_ deltas onCanvasWheel.

(** ** The cubes of a carpet, as data

    [CubePlacement]: the four arguments [drawCarpet] hands to
    [createCubeVertices]. *)
Record placement : Type := mkPlacement {
  centerX : Qc;
  centerY : Qc;
  centerZ : Qc;
  size : Qc
}.

Definition center (p : placement) : vec3 := (centerX p, centerY p, centerZ p).

Definition vertices_of (p : placement) : list Qc :=
  createCubeVertices (centerX p) (centerY p) (centerZ p) (size p).

(** The placements in the order [drawCarpet] reaches them: the same two
    loops and the same recursion, collecting instead of drawing.  Their
    number and their order do not depend on the arithmetic; what the
    coordinates are in binary64 is [Binary64.carpetCubes]. *)
Fixpoint carpetCubes (x y size : Qc) (iterations : nat) {struct iterations}
  : list placement :=
  let newSize := size / ofZ 3 in
  flat_map (fun i =>
    flat_map (fun j =>
      let newX := x + ofZ i * newSize in
      let newY := y + ofZ j * newSize in
      if (i =? 1)%Z && (j =? 1)%Z then
        [mkPlacement (newX + newSize / ofZ 2) (newY + newSize / ofZ 2)
                     (newSize / ofZ 2) newSize]
      else
        match iterations with
        | S (S _ as iterations') => carpetCubes newX newY newSize iterations'
        | _ => []
        end) [0; 1; 2]%Z) [0; 1; 2]%Z.

(** The nine cells of one level: the corner of cell [i] along one axis,
    the cube of the centre cell, and what the recursion contributes for a
    cell that is not the centre. *)
Definition cell (x sz : Qc) (i : Z) : Qc := x + ofZ i * (sz / ofZ 3).

Definition center_cube (x y sz : Qc) : placement :=
  mkPlacement (cell x sz 1 + sz / ofZ 3 / ofZ 2)
              (cell y sz 1 + sz / ofZ 3 / ofZ 2)
              (sz / ofZ 3 / ofZ 2) (sz / ofZ 3).

Definition sub_carpet (x y sz : Qc) (iterations : nat) (i j : Z)
  : list placement :=
  match iterations with
  | S (S _ as iterations') =>
      carpetCubes (cell x sz i) (cell y sz j) (sz / ofZ 3) iterations'
  | _ => []
  end.

(** [v] has at most four decimals. *)
Definition multiple_of_1e4 (v : Qc) : Prop :=
  exists k : Z, v = ofZ k / ofZ 10000.

(** The pivot [drawCube] computes for the vertices of a placement. *)
Definition pivot (p : placement) : vec3 :=
  let d := size p / ofZ 2 in
  ((round4 (centerX p - d) + round4 (centerX p + d)) / ofZ 2,
   (round4 (centerY p - d) + round4 (centerY p + d)) / ofZ 2,
   (round4 (centerZ p + d) + round4 (centerZ p - d)) / ofZ 2).

(** The events of one successful [drawCube], given the [state], the
    [modelMatrix] it finds and the pivot it computes. *)
Definition cube_events (s : State) (found : mat4) (vertices : list Qc)
  (c : vec3) : list event :=
  [ gl_activeTexture TEXTURE1;
    gl_bindTexture normalMap;
    gl_activeTexture TEXTURE0;
    gl_bindTexture texture;
    gl_bindBuffer vertexBuffer;
    gl_bufferData vertices;
    gl_enableVertexAttribArray aPosition;
    gl_vertexAttribPointer aPosition 3;
    gl_enableVertexAttribArray aTextureCoord;
    gl_bindBuffer textureCoordBuffer;
    gl_bufferData createCubeTextureCoordinates;
    gl_vertexAttribPointer aTextureCoord 2;
    gl_uniformMatrix4fv uNormalMatrix
      (mat4_transpose (mat4_invert mat4_create found));
    gl_uniformMatrix4fv uModelMatrix (computeModelMatrix s c);
    gl_uniformMatrix4fv uViewMatrix viewMatrix;
    gl_uniformMatrix4fv uProjectionMatrix projectionMatrix;
    gl_drawArrays 0 (ofZ (Z.of_nat (length vertices)) / ofZ 3) ].

(** The world after one successful [drawCube]. *)
Definition drawn (vertices : list Qc) (c : vec3) (w : World) : World :=
  mkWorld (state w) (computeModelMatrix (state w) c) (stepSlider w)
          (xRotationSlider w) (yRotationSlider w) (zRotationSlider w)
          (trace w ++ cube_events (state w) (modelMatrix w) vertices c).

Fixpoint drawn_all (cubes : list placement) (w : World) : World :=
  match cubes with
  | [] => w
  | p :: rest => drawn_all rest (drawn (vertices_of p) (pivot p) w)
  end.

(** The events of drawing [cubes] one after the other, starting from the
    model matrix [found]. *)
Fixpoint carpet_events (s : State) (found : mat4) (cubes : list placement)
  : list event :=
  match cubes with
  | [] => []
  | p :: rest =>
      cube_events s found (vertices_of p) (pivot p)
      ++ carpet_events s (computeModelMatrix s (pivot p)) rest
  end.

(** The model matrix left behind by drawing [cubes]. *)
Fixpoint final_modelMatrix (s : State) (found : mat4) (cubes : list placement)
  : mat4 :=
  match cubes with
  | [] => found
  | p :: rest => final_modelMatrix s (computeModelMatrix s (pivot p)) rest
  end.

(** [state] once [animate] has advanced the three angles. *)
Definition advanced (s : State) : State :=
  set_rotationAngles (xRotationAngle s + xRotationSpeed s / ofZ 200)
                     (yRotationAngle s + yRotationSpeed s / ofZ 200)
                     (zRotationAngle s + zRotationSpeed s / ofZ 200) s.

(** The events of one [animate], and the world it leaves. *)
Definition animate_events (w : World) : list event :=
  [ gl_clearColor 0 0 0 1;
    gl_clear true true;
    write_rotationAngle axisX (xRotationAngle (advanced (state w)));
    write_rotationAngle axisY (yRotationAngle (advanced (state w)));
    write_rotationAngle axisZ (zRotationAngle (advanced (state w))) ]
  ++ carpet_events (advanced (state w)) (modelMatrix w)
       (carpetCubes (- (1)) (- (1)) (canvasSize (state w)) (stepSlider w))
  ++ [requestAnimationFrame].

Definition animated (w : World) : World :=
  let cubes :=
    carpetCubes (- (1)) (- (1)) (canvasSize (state w)) (stepSlider w) in
  mkWorld (advanced (state w))
          (final_modelMatrix (advanced (state w)) (modelMatrix w) cubes)
          (stepSlider w)
          (xRotationSlider w) (yRotationSlider w) (zRotationSlider w)
          (trace w ++ animate_events w).

(** Line 529: the clamp of the zoom factor. *)
Definition clamp_zoom (v : Qc) : Qc :=
  Math_min (Math_max v (lit 1 10)) (ofZ 10).

(** ** Reading a trace *)

Definition is_drawArrays (e : event) : bool :=
  match e with gl_drawArrays _ _ => true | _ => false end.

Definition is_clear (e : event) : bool :=
  match e with gl_clear _ _ => true | _ => false end.

Definition is_write_rotationAngle (e : event) : bool :=
  match e with write_rotationAngle _ _ => true | _ => false end.

Definition is_uniformMatrix4fv (e : event) : bool :=
  match e with gl_uniformMatrix4fv _ _ => true | _ => false end.

Definition count_drawArrays (t : list event) : nat :=
  length (filter is_drawArrays t).

Definition uniform_eqb (u v : uniform) : bool :=
  match u, v with
  | uModelMatrix, uModelMatrix | uViewMatrix, uViewMatrix
  | uProjectionMatrix, uProjectionMatrix | uNormalMatrix, uNormalMatrix => true
  | _, _ => false
  end.

(** The matrices uploaded to uniform [u], in order. *)
Fixpoint uploads (u : uniform) (t : list event) : list mat4 :=
  match t with
  | [] => []
  | gl_uniformMatrix4fv v m :: t' =>
      if uniform_eqb u v then m :: uploads u t' else uploads u t'
  | _ :: t' => uploads u t'
  end.

(** Some event satisfying [p] comes strictly before some event
    satisfying [q]. *)
Fixpoint occurs_before (p q : event -> bool) (t : list event) : bool :=
  match t with
  | [] => false
  | e :: t' => (p e && existsb q t') || occurs_before p q t'
  end.

(** [1 + 8 + ... + 8^(n-1)]. *)
Fixpoint sum_pow8 (n : nat) : nat :=
  match n with
  | O => O
  | S k => sum_pow8 k + 8 ^ k
  end.

(** Matrix product, written the way the spec writes it. *)
Notation "a *m b" := (mat4_multiply a b) (at level 40, left associativity).

(** The rotation one pointer move contributes: about Y by [k * deltaX],
    then about X by [k * deltaY]. *)
Definition drag_increment (k deltaX deltaY : Qc) : mat4 :=
  RotY (k * deltaX) *m RotX (k * deltaY).

(** ** The page as a whole

    What the browser can deliver to the listeners of lines 532-553, and a
    frame.  A rotation slider's [input] listener echoes the value into the
    page text, which is not part of the world, and calls [redraw]; the
    browser has set the slider's value before.  The step slider's value is
    read by [animate] at every frame. *)
Inductive input : Type :=
| mousedown (clientX clientY : Qc)
| mouseup
| mouseout
| mousemove (clientX clientY : Qc)
| wheel (deltaY : Qc)
| xRotation_input (value : Qc)
| yRotation_input (value : Qc)
| zRotation_input (value : Qc)
| step_change (value : nat)
| frame.

Definition set_sliders (steps : nat) (x y z : Qc) : M unit := fun w =>
  Some (tt, mkWorld (state w) (modelMatrix w) steps x y z (trace w)).

Definition handle (i : input) : M unit :=
  match i with
  | mousedown clientX clientY => handleMouseDown clientX clientY
  | mouseup => handleMouseUp
  | mouseout => handleMouseUp
  | mousemove clientX clientY => handleMouseMove clientX clientY
  | wheel deltaY => onCanvasWheel deltaY
  | xRotation_input value =>
      w <- read (fun w => w) ;;
      set_sliders (stepSlider w) value (yRotationSlider w) (zRotationSlider w) ;;
      redraw
  | yRotation_input value =>
      w <- read (fun w => w) ;;
      set_sliders (stepSlider w) (xRotationSlider w) value (zRotationSlider w) ;;
      redraw
  | zRotation_input value =>
      w <- read (fun w => w) ;;
      set_sliders (stepSlider w) (xRotationSlider w) (yRotationSlider w) value ;;
      redraw
  | step_change value =>
      w <- read (fun w => w) ;;
      set_sliders value (xRotationSlider w) (yRotationSlider w)
                  (zRotationSlider w)
  | frame => animate
  end.

(** The page's life: the inputs and frames, handled in order. *)
Definition run (inputs : list input) : M unit := for_ inputs handle.

(** ** The vertex shader

    Line 14: [gl_Position = uProjectionMatrix * uViewMatrix * uModelMatrix *
    aPosition]; a position attribute fed three numbers per vertex has
    [w = 1]. *)
Definition vec4 : Type := (Qc * Qc * Qc * Qc)%type.

Definition mat4_mul_vec4 (m : mat4) (v : vec4) : vec4 :=
  let '(x, y, z, w) := v in
  (e0 m * x + e4 m * y + e8 m * z + e12 m * w,
   e1 m * x + e5 m * y + e9 m * z + e13 m * w,
   e2 m * x + e6 m * y + e10 m * z + e14 m * w,
   e3 m * x + e7 m * y + e11 m * z + e15 m * w).

Definition gl_Position (uModelMatrix uViewMatrix uProjectionMatrix : mat4)
  (aPosition : vec3) : vec4 :=
  let '(x, y, z) := aPosition in
  mat4_mul_vec4 (uProjectionMatrix *m uViewMatrix *m uModelMatrix) (x, y, z, 1).

(** ** Reading geometry *)

(** A flat array read three numbers at a time, as
    [vertexAttribPointer(position, 3, ...)] makes the GPU read it; a tail
    of fewer than three numbers is not a vertex. *)
Fixpoint triples (a : list Qc) : list vec3 :=
  match a with
  | x :: y :: z :: rest => (x, y, z) :: triples rest
  | _ => []
  end.

(** The eight corners of the cube centred at [(x, y, z)] with half side [d]. *)
Definition corners (x y z d : Qc) : list vec3 :=
  [ (x - d, y - d, z - d); (x - d, y - d, z + d);
    (x - d, y + d, z - d); (x - d, y + d, z + d);
    (x + d, y - d, z - d); (x + d, y - d, z + d);
    (x + d, y + d, z - d); (x + d, y + d, z + d) ].

(** The arrays handed to [gl.bufferData], in order. *)
Fixpoint buffers (t : list event) : list (list Qc) :=
  match t with
  | [] => []
  | gl_bufferData data :: t' => data :: buffers t'
  | _ :: t' => buffers t'
  end.

(** The vertex counts of the draw calls, in order. *)
Fixpoint draw_counts (t : list event) : list Qc :=
  match t with
  | [] => []
  | gl_drawArrays _ count :: t' => count :: draw_counts t'
  | _ :: t' => draw_counts t'
  end.

(** What holds of the page at every moment (see [run_invariant]). *)
Definition page_invariant (w : World) : Prop :=
  lit 1 10 <= canvasScale (state w) /\ canvasScale (state w) <= ofZ 10 /\
  canvasSize (state w) = ofZ 2 /\
  dragSensitivity (state w) = lit 1 100 /\
  (mouseDown (state w) = true ->
   lastMouseX (state w) <> None /\ lastMouseY (state w) <> None).

(** The rotation a drag leaves: the button goes down at [from], the
    pointer visits [moves] in order, and each move multiplies its increment
    on the left of what is there. *)
Fixpoint drag_product (k : Qc) (from : Qc * Qc) (moves : list (Qc * Qc))
  (D : mat4) : mat4 :=
  match moves with
  | [] => D
  | m :: rest =>
      drag_product k m rest
        (drag_increment k (fst m - fst from) (snd m - snd from) *m D)
  end.

(** A drag as the listeners see it: press, moves, release. *)
Definition drag (from : Qc * Qc) (moves : list (Qc * Qc)) : M unit :=
  handleMouseDown (fst from) (snd from) ;;
  for_ moves (fun m => handleMouseMove (fst m) (snd m)) ;;
  handleMouseUp.

(** Kinds of input. *)
Definition is_wheel (i : input) : bool :=
  match i with wheel _ => true | _ => false end.

Definition is_pointer (i : input) : bool :=
  match i with
  | mousedown _ _ | mouseup | mouseout | mousemove _ _ => true
  | _ => false
  end.

Definition is_spin (i : input) : bool :=
  match i with
  | xRotation_input _ | yRotation_input _ | zRotation_input _ | frame => true
  | _ => false
  end.

(** * Properties *)

(** ** Matrices *)

Lemma mat4_eq (a b : mat4) :
  e0 a = e0 b -> e1 a = e1 b -> e2 a = e2 b -> e3 a = e3 b ->
  e4 a = e4 b -> e5 a = e5 b -> e6 a = e6 b -> e7 a = e7 b ->
  e8 a = e8 b -> e9 a = e9 b -> e10 a = e10 b -> e11 a = e11 b ->
  e12 a = e12 b -> e13 a = e13 b -> e14 a = e14 b -> e15 a = e15 b ->
  a = b.
Proof. destruct a, b; simpl; intros; subst; reflexivity. Qed.

Ltac mat4_ring := apply mat4_eq; cbn; ring.

Lemma mat4_multiply_assoc (a b c : mat4) :
  mat4_multiply (mat4_multiply a b) c = mat4_multiply a (mat4_multiply b c).
Proof. mat4_ring. Qed.

Lemma mat4_invert_right (out a : mat4) :
  mat4_determinant a <> 0 ->
  mat4_multiply a (mat4_invert out a) = mat4_create.
Proof.
  intro Hd. unfold mat4_invert.
  destruct (Qc_eq_dec _ 0) as [E | _]; [exact (False_ind _ (Hd E)) |].
  apply mat4_eq; cbn; unfold mat4_determinant in Hd; field; exact Hd.
Qed.

Lemma mat4_scale_spec (a : mat4) (v : vec3) :
  mat4_scale a v = a *m Scale v.
Proof. destruct v as [[x y] z]. mat4_ring. Qed.

Lemma mat4_translate_spec (a : mat4) (v : vec3) :
  mat4_translate a v = a *m Translate v.
Proof. destruct v as [[x y] z]. mat4_ring. Qed.

Lemma mat4_rotateX_spec (a : mat4) (rad : Qc) :
  mat4_rotateX a rad = a *m RotX rad.
Proof. mat4_ring. Qed.

Lemma mat4_rotateY_spec (a : mat4) (rad : Qc) :
  mat4_rotateY a rad = a *m RotY rad.
Proof. mat4_ring. Qed.

Lemma mat4_rotateZ_spec (a : mat4) (rad : Qc) :
  mat4_rotateZ a rad = a *m RotZ rad.
Proof. mat4_ring. Qed.

Lemma mat4_multiply_1_l (a : mat4) : mat4_create *m a = a.
Proof. mat4_ring. Qed.

Lemma mat4_multiply_1_r (a : mat4) : a *m mat4_create = a.
Proof. mat4_ring. Qed.


(** ** Runs of the drawing functions *)

Lemma bind_Some {A B} (c : M A) (k : A -> M B) (w w' : World) (a : A) :
  c w = Some (a, w') -> bind c k w = k a w'.
Proof. intro H. unfold bind. rewrite H. reflexivity. Qed.

Lemma app_one_assoc {A} (l : list A) (e : A) (r : list A) :
  (l ++ [e]) ++ r = l ++ e :: r.
Proof. rewrite <- app_assoc. reflexivity. Qed.

Ltac world_simpl :=
  cbn [state modelMatrix stepSlider xRotationSlider yRotationSlider
       zRotationSlider trace].

Ltac state_simpl :=
  cbn [set_rotationAngles set_rotationSpeeds set_mouseDown set_lastMouse
       set_canvasRotationMatrix set_canvasScale
       canvasSize xRotationSpeed yRotationSpeed zRotationSpeed
       xRotationAngle yRotationAngle zRotationAngle mouseDown lastMouseX
       lastMouseY dragSensitivity canvasRotationMatrix canvasScale].

Ltac or_null_simpl := cbn [or_null].

Lemma emit_bind {B} (e : event) (k : unit -> M B) (w : World) :
  bind (emit e) k w
  = k tt (mkWorld (state w) (modelMatrix w) (stepSlider w) (xRotationSlider w)
                  (yRotationSlider w) (zRotationSlider w) (trace w ++ [e])).
Proof. reflexivity. Qed.

Lemma emit_run (e : event) (w : World) :
  emit e w
  = Some (tt, mkWorld (state w) (modelMatrix w) (stepSlider w)
                      (xRotationSlider w) (yRotationSlider w)
                      (zRotationSlider w) (trace w ++ [e])).
Proof. reflexivity. Qed.

Lemma get_state_bind {B} (k : State -> M B) (w : World) :
  bind get_state k w = k (state w) w.
Proof. reflexivity. Qed.

Lemma get_modelMatrix_bind {B} (k : mat4 -> M B) (w : World) :
  bind get_modelMatrix k w = k (modelMatrix w) w.
Proof. reflexivity. Qed.

Lemma read_bind {A B} (f : World -> A) (k : A -> M B) (w : World) :
  bind (read f) k w = k (f w) w.
Proof. reflexivity. Qed.

Lemma put_state_bind {B} (s : State) (k : unit -> M B) (w : World) :
  bind (put_state s) k w
  = k tt (mkWorld s (modelMatrix w) (stepSlider w) (xRotationSlider w)
                  (yRotationSlider w) (zRotationSlider w) (trace w)).
Proof. reflexivity. Qed.

Lemma put_modelMatrix_bind {B} (m : mat4) (k : unit -> M B) (w : World) :
  bind (put_modelMatrix m) k w
  = k tt (mkWorld (state w) m (stepSlider w) (xRotationSlider w)
                  (yRotationSlider w) (zRotationSlider w) (trace w)).
Proof. reflexivity. Qed.

Lemma lift_bind {A B} (a : A) (k : A -> M B) (w : World) :
  bind (lift (Some a)) k w = k a w.
Proof. reflexivity. Qed.

(** One statement of a monadic body at a time, keeping the world small. *)
Ltac step :=
  first [ rewrite emit_bind | rewrite get_state_bind
        | rewrite get_modelMatrix_bind | rewrite read_bind
        | rewrite put_state_bind | rewrite put_modelMatrix_bind
        | rewrite lift_bind | rewrite emit_run ];
  cbv beta; world_simpl.

Lemma drawCube_run (vertices : list Qc) (c : vec3) (w : World) :
  cubeCenter vertices = Some c ->
  drawCube vertices w = Some (tt, drawn vertices c w).
Proof.
  intro Hc. destruct w as [s m st xs ys zs t].
  unfold drawCube, drawn, cube_events. rewrite Hc.
  repeat step. rewrite !app_one_assoc. reflexivity.
Qed.

Lemma cubeCenter_vertices_of (p : placement) :
  cubeCenter (vertices_of p) = Some (pivot p).
Proof. reflexivity. Qed.

Lemma drawCube_placement (x y z sz : Qc) (w : World) :
  drawCube (createCubeVertices x y z sz) w
  = Some (tt, drawn_all [mkPlacement x y z sz] w).
Proof.
  exact (drawCube_run (vertices_of (mkPlacement x y z sz)) _ w
                      (cubeCenter_vertices_of _)).
Qed.

Lemma drawn_all_app (l1 l2 : list placement) (w : World) :
  drawn_all (l1 ++ l2) w = drawn_all l2 (drawn_all l1 w).
Proof. revert w. induction l1 as [| p l1 IH]; intro w; cbn; [reflexivity | apply IH]. Qed.

Lemma for_run {A} (f : A -> list placement) (body : A -> M unit) (l : list A) :
  (forall a w, In a l -> body a w = Some (tt, drawn_all (f a) w)) ->
  forall w, for_ l body w = Some (tt, drawn_all (flat_map f l) w).
Proof.
  induction l as [| a l IH]; intros Hb w; cbn.
  - reflexivity.
  - rewrite (bind_Some _ _ w (drawn_all (f a) w) tt) by (apply Hb; now left).
    rewrite drawn_all_app. apply IH. intros b w' Hin. apply Hb. now right.
Qed.

(** [drawCarpet] draws the cubes of [carpetCubes], in that order, and
    always returns. *)
Lemma drawCarpet_run (iterations : nat) :
  forall x y size w,
    drawCarpet x y size iterations w
    = Some (tt, drawn_all (carpetCubes x y size iterations) w).
Proof.
  induction iterations as [| n IH]; intros x y sz w.
  - cbn [drawCarpet carpetCubes]. apply for_run. intros i w1 _.
    apply for_run. intros j w2 _.
    destruct ((i =? 1)%Z && (j =? 1)%Z); [| reflexivity].
    apply drawCube_placement.
  - cbn [drawCarpet carpetCubes]. apply for_run. intros i w1 _.
    apply for_run. intros j w2 _.
    destruct ((i =? 1)%Z && (j =? 1)%Z).
    + apply drawCube_placement.
    + destruct n as [| k]; [reflexivity | apply IH].
Qed.

(** The test and the decrement of the source, [iterations > 1] and
    [iterations - 1], against the match of [drawCarpet]. *)
Lemma drawCarpet_unfold (x y sz : Qc) (iterations : nat) :
  drawCarpet x y sz iterations =
  let newSize := sz / ofZ 3 in
  for_ [0; 1; 2]%Z (fun i =>
    for_ [0; 1; 2]%Z (fun j =>
      let newX := x + ofZ i * newSize in
      let newY := y + ofZ j * newSize in
      if (i =? 1)%Z && (j =? 1)%Z then
        drawCube (createCubeVertices (newX + newSize / ofZ 2)
                                     (newY + newSize / ofZ 2)
                                     (newSize / ofZ 2) newSize)
      else if (1 <? iterations)%nat then
        drawCarpet newX newY newSize (iterations - 1)
      else ret tt)).
Proof.
  destruct iterations as [| [| k]]; reflexivity.
Qed.

Lemma carpetCubes_unfold (x y sz : Qc) (iterations : nat) :
  carpetCubes x y sz iterations =
  let newSize := sz / ofZ 3 in
  flat_map (fun i =>
    flat_map (fun j =>
      let newX := x + ofZ i * newSize in
      let newY := y + ofZ j * newSize in
      if (i =? 1)%Z && (j =? 1)%Z then
        [mkPlacement (newX + newSize / ofZ 2) (newY + newSize / ofZ 2)
                     (newSize / ofZ 2) newSize]
      else if (1 <? iterations)%nat then
        carpetCubes newX newY newSize (iterations - 1)
      else []) [0; 1; 2]%Z) [0; 1; 2]%Z.
Proof.
  destruct iterations as [| [| k]]; try reflexivity.
Qed.


(** ** The carpet *)

Lemma sum_pow8_S (n : nat) : sum_pow8 (S n) = (1 + 8 * sum_pow8 n)%nat.
Proof.
  induction n as [| k IH]; [reflexivity |].
  change (sum_pow8 (S (S k))) with (sum_pow8 (S k) + 8 ^ S k)%nat.
  rewrite IH at 1. cbn [sum_pow8 Nat.pow]. lia.
Qed.

Lemma carpetCubes_cells (x y sz : Qc) (iterations : nat) :
  carpetCubes x y sz iterations =
  (sub_carpet x y sz iterations 0 0 ++ sub_carpet x y sz iterations 0 1
     ++ sub_carpet x y sz iterations 0 2 ++ [])
  ++ (sub_carpet x y sz iterations 1 0 ++ [center_cube x y sz]
        ++ sub_carpet x y sz iterations 1 2 ++ [])
  ++ (sub_carpet x y sz iterations 2 0 ++ sub_carpet x y sz iterations 2 1
        ++ sub_carpet x y sz iterations 2 2 ++ [])
  ++ [].
Proof. destruct iterations as [| [| k]]; reflexivity. Qed.

Lemma carpetCubes_length (n : nat) :
  forall x y sz, length (carpetCubes x y sz (S n)) = sum_pow8 (S n).
Proof.
  induction n as [| k IH]; intros x y sz; [reflexivity |].
  rewrite (sum_pow8_S (S k)), carpetCubes_cells.
  unfold sub_carpet. rewrite !length_app, !IH. cbn [length]. lia.
Qed.

Lemma count_drawArrays_app (t1 t2 : list event) :
  count_drawArrays (t1 ++ t2)
  = (count_drawArrays t1 + count_drawArrays t2)%nat.
Proof. unfold count_drawArrays. rewrite filter_app, length_app. reflexivity. Qed.

Lemma count_drawArrays_drawn_all (cubes : list placement) :
  forall w, count_drawArrays (trace (drawn_all cubes w))
            = (count_drawArrays (trace w) + length cubes)%nat.
Proof.
  induction cubes as [| p rest IH]; intro w; cbn [drawn_all length].
  - lia.
  - rewrite IH. cbn [drawn trace]. rewrite count_drawArrays_app.
    change (count_drawArrays (cube_events _ _ _ _)) with 1%nat. lia.
Qed.

(** C1: for every [iterations >= 1] (and every size, positive or not),
    [drawCarpet] returns, having issued exactly
    [1 + 8 + ... + 8^(iterations-1)] draw calls, one per placement of
    [carpetCubes]; for [iterations = 2] that is 9. *)
Theorem drawCarpet_count (x y sz : Qc) (iterations : nat) (w : World) :
  (1 <= iterations)%nat ->
  exists w',
    drawCarpet x y sz iterations w = Some (tt, w') /\
    length (carpetCubes x y sz iterations) = sum_pow8 iterations /\
    count_drawArrays (trace w')
    = (count_drawArrays (trace w) + sum_pow8 iterations)%nat /\
    sum_pow8 2 = 9%nat.
Proof.
  intro H. destruct iterations as [| n]; [lia |].
  exists (drawn_all (carpetCubes x y sz (S n)) w).
  split; [apply drawCarpet_run |].
  split; [apply carpetCubes_length |].
  split; [| reflexivity].
  rewrite count_drawArrays_drawn_all, carpetCubes_length. reflexivity.
Qed.

Lemma Qc_compute_eq (a b : Qc) : Qeq_bool a b = true -> a = b.
Proof. intro H. apply Qc_is_canon. apply Qeq_bool_iff. exact H. Qed.

Ltac qc_compute := apply Qc_compute_eq; vm_compute; reflexivity.

Lemma carpetCubes_first :
  carpetCubes (- (1)) (- (1)) (ofZ 2) 1
  = [mkPlacement 0 0 (lit 1 3) (lit 2 3)].
Proof.
  cbn [carpetCubes flat_map Z.eqb Pos.eqb andb app].
  f_equal. f_equal; qc_compute.
Qed.

Lemma carpetCubes64_first :
  Binary64.page 1
  = [Binary64.mkPlacement (-5.551115123125783e-17) (-5.551115123125783e-17)
                          0.3333333333333333 0.6666666666666666]%float.
Proof. vm_compute. reflexivity. Qed.

(** C2, amended: with [iterations = 1] the run is exactly one [drawCube], of
    the centre cell, at
    [(x + 1 * (size/3) + size/3/2, y + 1 * (size/3) + size/3/2, size/3/2)]
    and with side [size/3].  From [(-1, -1)] with size [2] these are, in
    binary64, [(-2^-54, -2^-54, 0.3333333333333333)] and
    [0.6666666666666666]: close to, and not, [(0, 0, 1/3)] and [2/3]. *)
Theorem final_level_center_only :
  (forall x y sz w,
      drawCarpet x y sz 1 w =
      drawCube (createCubeVertices
                  (x + ofZ 1 * (sz / ofZ 3) + sz / ofZ 3 / ofZ 2)
                  (y + ofZ 1 * (sz / ofZ 3) + sz / ofZ 3 / ofZ 2)
                  (sz / ofZ 3 / ofZ 2) (sz / ofZ 3)) w) /\
  (forall x y sz w, exists w',
      drawCarpet x y sz 1 w = Some (tt, w') /\
      count_drawArrays (trace w') = S (count_drawArrays (trace w))) /\
  (forall x y sz,
      carpetCubes x y sz 1 =
      [mkPlacement (x + ofZ 1 * (sz / ofZ 3) + sz / ofZ 3 / ofZ 2)
                   (y + ofZ 1 * (sz / ofZ 3) + sz / ofZ 3 / ofZ 2)
                   (sz / ofZ 3 / ofZ 2) (sz / ofZ 3)]) /\
  (forall x y sz : float,
      Binary64.carpetCubes x y sz 1 =
      [Binary64.mkPlacement (x + 1 * (sz / 3) + sz / 3 / 2)
                            (y + 1 * (sz / 3) + sz / 3 / 2)
                            (sz / 3 / 2) (sz / 3)]%float) /\
  Binary64.carpetCubes (-1) (-1) 2 1
  = [Binary64.mkPlacement (-5.551115123125783e-17) (-5.551115123125783e-17)
                          0.3333333333333333 0.6666666666666666]%float /\
  Binary64.value (-5.551115123125783e-17)%float
  = - lit 1 18014398509481984 /\
  Binary64.value 0.3333333333333333%float
  = lit 1 3 - lit 1 54043195528445952 /\
  Binary64.value 0.6666666666666666%float
  = lit 2 3 - lit 1 27021597764222976.
Proof.
  assert (R : forall x y sz w,
      drawCarpet x y sz 1 w =
      drawCube (createCubeVertices
                  (x + ofZ 1 * (sz / ofZ 3) + sz / ofZ 3 / ofZ 2)
                  (y + ofZ 1 * (sz / ofZ 3) + sz / ofZ 3 / ofZ 2)
                  (sz / ofZ 3 / ofZ 2) (sz / ofZ 3)) w).
  { intros x y sz w. rewrite drawCarpet_run.
    cbn [carpetCubes flat_map Z.eqb Pos.eqb andb app].
    symmetry. apply drawCube_placement. }
  split; [exact R |]. split.
  - intros x y sz w. exists (drawn_all (carpetCubes x y sz 1) w).
    split; [apply drawCarpet_run |].
    rewrite count_drawArrays_drawn_all.
    change (length (carpetCubes x y sz 1)) with 1%nat. lia.
  - split; [reflexivity |]. split; [reflexivity |].
    split; [exact carpetCubes64_first |].
    repeat split; qc_compute.
Qed.


(** ** The transform of one cube *)

Lemma uploads_app (u : uniform) (t1 t2 : list event) :
  uploads u (t1 ++ t2) = uploads u t1 ++ uploads u t2.
Proof.
  induction t1 as [| e t1 IH]; [reflexivity |].
  destruct e; cbn [app uploads]; try exact IH.
  destruct (uniform_eqb u u0); [cbn [app]; f_equal |]; exact IH.
Qed.

Lemma computeModelMatrix_spec (s : State) (cx cy cz : Qc) :
  computeModelMatrix s (cx, cy, cz)
  = canvasRotationMatrix s
    *m Scale (canvasScale s, canvasScale s, canvasScale s)
    *m Translate (cx, cy, cz)
    *m RotX (xRotationAngle s) *m RotY (yRotationAngle s)
    *m RotZ (zRotationAngle s)
    *m Translate (- cx, - cy, - cz).
Proof.
  unfold computeModelMatrix.
  rewrite mat4_scale_spec, mat4_multiply_1_l, !mat4_translate_spec,
    mat4_rotateX_spec, mat4_rotateY_spec, mat4_rotateZ_spec.
  reflexivity.
Qed.

(** C3, amended: for every vertex array and every world, the call returns
    and leaves (and uploads) as model matrix the product
    [dragRotation * Scale(zoom) * Translate(c) * RotX * RotY * RotZ *
    Translate(-c)], the factors taken in this order, where [c = (cx, cy, cz)]
    is the pivot [drawCube] computes from the vertex array, not the centre
    of the placement. *)
Theorem drawCube_modelMatrix_product (vertices : list Qc) (cx cy cz : Qc)
  (w : World) :
  cubeCenter vertices = Some (cx, cy, cz) ->
  let s := state w in
  let product :=
    canvasRotationMatrix s
    *m Scale (canvasScale s, canvasScale s, canvasScale s)
    *m Translate (cx, cy, cz)
    *m RotX (xRotationAngle s) *m RotY (yRotationAngle s)
    *m RotZ (zRotationAngle s)
    *m Translate (- cx, - cy, - cz) in
  exists w',
    drawCube vertices w = Some (tt, w') /\
    modelMatrix w' = product /\
    uploads uModelMatrix (trace w')
    = uploads uModelMatrix (trace w) ++ [product] /\
    product =
    canvasRotationMatrix s
    *m (Scale (canvasScale s, canvasScale s, canvasScale s)
        *m (Translate (cx, cy, cz)
            *m (RotX (xRotationAngle s)
                *m (RotY (yRotationAngle s)
                    *m (RotZ (zRotationAngle s)
                        *m Translate (- cx, - cy, - cz)))))).
Proof.
  intros Hc s product.
  exists (drawn vertices (cx, cy, cz) w).
  split; [apply drawCube_run; exact Hc |].
  split; [apply computeModelMatrix_spec |].
  split.
  - cbn [drawn trace]. rewrite uploads_app. f_equal.
    unfold cube_events. cbn [uploads uniform_eqb].
    rewrite computeModelMatrix_spec. reflexivity.
  - unfold product. rewrite !mat4_multiply_assoc. reflexivity.
Qed.

(** ** The render loop *)

Lemma drawn_all_spec (cubes : list placement) :
  forall w,
    drawn_all cubes w
    = mkWorld (state w)
              (final_modelMatrix (state w) (modelMatrix w) cubes)
              (stepSlider w) (xRotationSlider w) (yRotationSlider w)
              (zRotationSlider w)
              (trace w ++ carpet_events (state w) (modelMatrix w) cubes).
Proof.
  induction cubes as [| p rest IH]; intro w;
    cbn [drawn_all carpet_events final_modelMatrix].
  - rewrite app_nil_r. destruct w; reflexivity.
  - rewrite IH. cbn [drawn]. world_simpl. rewrite app_assoc. reflexivity.
Qed.

Lemma animate_run (w : World) : animate w = Some (tt, animated w).
Proof.
  unfold animate. do 3 step. state_simpl.
  do 3 step. state_simpl. do 3 step. state_simpl. do 4 step.
  rewrite (bind_Some _ _ _ _ _ (drawCarpet_run _ _ _ _ _)).
  rewrite emit_run, drawn_all_spec. world_simpl.
  unfold animated, animate_events, advanced. state_simpl.
  rewrite !app_one_assoc, <- !app_assoc. reflexivity.
Qed.


Lemma ticks_run (n : nat) :
  forall w, exists w',
    ticks n w = Some (tt, w') /\
    xRotationSpeed (state w') = xRotationSpeed (state w) /\
    yRotationSpeed (state w') = yRotationSpeed (state w) /\
    zRotationSpeed (state w') = zRotationSpeed (state w) /\
    xRotationAngle (state w')
    = Nat.iter n (fun a => a + xRotationSpeed (state w) / ofZ 200)
               (xRotationAngle (state w)) /\
    yRotationAngle (state w')
    = Nat.iter n (fun a => a + yRotationSpeed (state w) / ofZ 200)
               (yRotationAngle (state w)) /\
    zRotationAngle (state w')
    = Nat.iter n (fun a => a + zRotationSpeed (state w) / ofZ 200)
               (zRotationAngle (state w)).
Proof.
  induction n as [| k IH]; intro w.
  - exists w. repeat split; reflexivity.
  - destruct (IH (animated w)) as (w' & Hrun & Hx & Hy & Hz & Ax & Ay & Az).
    exists w'. split.
    + cbn [ticks]. rewrite (bind_Some _ _ _ _ _ (animate_run w)). exact Hrun.
    + rewrite Hx, Hy, Hz, Ax, Ay, Az, !Nat.iter_succ_r.
      unfold animated, advanced. world_simpl. state_simpl.
      repeat split; reflexivity.
Qed.

Lemma ticks64_iter (n : nat) :
  forall angle speed,
    Binary64.ticks n angle speed
    = Nat.iter n (fun a => (a + speed / 200)%float) angle.
Proof.
  induction n as [| k IH]; intros angle speed; [reflexivity |].
  cbn [Binary64.ticks]. rewrite IH, Nat.iter_succ_r. reflexivity.
Qed.

Lemma ticks64_whole_check :
  forallb (fun n => Qeq_bool (Binary64.value (Binary64.ticks n 0 200))
                             (ofZ (Z.of_nat n)))
          (seq 0 1001) = true.
Proof. vm_compute. reflexivity. Qed.

Lemma ticks64_whole (n : nat) :
  (n <= 1000)%nat ->
  Binary64.value (Binary64.ticks n 0 200) = ofZ (Z.of_nat n).
Proof.
  intro Hn. pose proof ticks64_whole_check as H. rewrite forallb_forall in H.
  apply Qc_compute_eq. apply H. apply in_seq. lia.
Qed.

(** C7, amended: one tick replaces each angle by the sum of the angle and
    [speed / 200] and leaves the speeds alone, so [n] ticks at constant
    speed are [n] such additions in a row.  In binary64 the step for speed
    [200] is exactly [1] and [n] ticks from [0] give exactly [n] (for every
    [n] up to 1000), while ten ticks at speed [20] from [0] give
    [0.9999999999999999]: every addition rounds, and the sum is
    [n * speed / 200] only when none of them does. *)
Theorem spin_advance :
  (forall w : World, exists w',
      animate w = Some (tt, w') /\
      xRotationAngle (state w')
      = xRotationAngle (state w) + xRotationSpeed (state w) / ofZ 200 /\
      yRotationAngle (state w')
      = yRotationAngle (state w) + yRotationSpeed (state w) / ofZ 200 /\
      zRotationAngle (state w')
      = zRotationAngle (state w) + zRotationSpeed (state w) / ofZ 200 /\
      xRotationSpeed (state w') = xRotationSpeed (state w) /\
      yRotationSpeed (state w') = yRotationSpeed (state w) /\
      zRotationSpeed (state w') = zRotationSpeed (state w) /\
      (xRotationSpeed (state w) = ofZ 200 ->
       xRotationAngle (state w') = xRotationAngle (state w) + 1)) /\
  (forall (n : nat) (w : World), exists w',
      ticks n w = Some (tt, w') /\
      xRotationAngle (state w')
      = Nat.iter n (fun a => a + xRotationSpeed (state w) / ofZ 200)
                 (xRotationAngle (state w)) /\
      yRotationAngle (state w')
      = Nat.iter n (fun a => a + yRotationSpeed (state w) / ofZ 200)
                 (yRotationAngle (state w)) /\
      zRotationAngle (state w')
      = Nat.iter n (fun a => a + zRotationSpeed (state w) / ofZ 200)
                 (zRotationAngle (state w))) /\
  (forall (n : nat) (angle speed : float),
      Binary64.ticks n angle speed
      = Nat.iter n (fun a => (a + speed / 200)%float) angle) /\
  (forall angle : float, Binary64.advance angle 200 = (angle + 1)%float) /\
  Binary64.ticks 1 0 200 = 1%float /\
  (forall n : nat,
      (n <= 1000)%nat ->
      Binary64.value (Binary64.ticks n 0 200) = ofZ (Z.of_nat n)) /\
  Binary64.ticks 10 0 20 = 0.9999999999999999%float.
Proof.
  split; [| split].
  - intro w. exists (animated w). split; [apply animate_run |].
    unfold animated, advanced. world_simpl. state_simpl.
    repeat split. intros ->. f_equal. qc_compute.
  - intros n w.
    destruct (ticks_run n w) as (w' & Hrun & _ & _ & _ & Ax & Ay & Az).
    exists w'. auto.
  - split; [exact ticks64_iter |]. split; [reflexivity |].
    split; [reflexivity |]. split; [exact ticks64_whole |].
    vm_compute. reflexivity.
Qed.

Lemma occurs_before_exists (p q : event -> bool) (t : list event) :
  occurs_before p q t = true -> existsb p t = true /\ existsb q t = true.
Proof.
  induction t as [| e t IH]; cbn [occurs_before existsb]; [discriminate |].
  intro H. apply orb_true_iff in H. destruct H as [H | H].
  - apply andb_true_iff in H. destruct H as [-> ->].
    split; [reflexivity | apply orb_true_r].
  - destruct (IH H) as [-> ->]. split; apply orb_true_r.
Qed.

Lemma occurs_before_app (p q : event -> bool) (t1 t2 : list event) :
  occurs_before p q (t1 ++ t2)
  = occurs_before p q t1 || (existsb p t1 && existsb q t2)
    || occurs_before p q t2.
Proof.
  induction t1 as [| e t1 IH]; [reflexivity |].
  cbn [app occurs_before existsb]. rewrite IH, existsb_app.
  destruct (p e), (existsb q t1), (existsb q t2), (occurs_before p q t1),
    (existsb p t1), (occurs_before p q t2); reflexivity.
Qed.

Lemma carpet_events_no (p : event -> bool) (s : State) (cubes : list placement) :
  (forall found v c, existsb p (cube_events s found v c) = false) ->
  forall found, existsb p (carpet_events s found cubes) = false.
Proof.
  intro Hp. induction cubes as [| c rest IH]; intro found; [reflexivity |].
  cbn [carpet_events]. rewrite existsb_app, Hp, IH. reflexivity.
Qed.

Lemma occurs_before_none_l (p q : event -> bool) (t : list event) :
  existsb p t = false -> occurs_before p q t = false.
Proof.
  intro H. destruct (occurs_before p q t) eqn:E; [| reflexivity].
  apply occurs_before_exists in E. destruct E as [E _]. congruence.
Qed.

Lemma occurs_before_none_r (p q : event -> bool) (t : list event) :
  existsb q t = false -> occurs_before p q t = false.
Proof.
  intro H. destruct (occurs_before p q t) eqn:E; [| reflexivity].
  apply occurs_before_exists in E. destruct E as [_ E]. congruence.
Qed.

Lemma animate_events_order (w : World) :
  occurs_before is_clear is_write_rotationAngle (animate_events w) = true /\
  occurs_before is_write_rotationAngle is_clear (animate_events w) = false /\
  occurs_before is_drawArrays is_write_rotationAngle (animate_events w) = false /\
  occurs_before is_uniformMatrix4fv is_write_rotationAngle (animate_events w)
  = false.
Proof.
  unfold animate_events.
  split; [reflexivity |].
  split; [| split].
  - rewrite !occurs_before_app, !existsb_app.
    rewrite (occurs_before_none_r _ is_clear (carpet_events _ _ _))
      by (apply carpet_events_no; reflexivity).
    rewrite (carpet_events_no is_clear) by reflexivity.
    cbn. rewrite !andb_false_r. reflexivity.
  - rewrite !occurs_before_app, !existsb_app.
    rewrite (occurs_before_none_r _ is_write_rotationAngle (carpet_events _ _ _))
      by (apply carpet_events_no; reflexivity).
    rewrite (carpet_events_no is_write_rotationAngle) by reflexivity.
    cbn. rewrite !andb_false_r. reflexivity.
  - rewrite !occurs_before_app, !existsb_app.
    rewrite (occurs_before_none_r _ is_write_rotationAngle (carpet_events _ _ _))
      by (apply carpet_events_no; reflexivity).
    rewrite (carpet_events_no is_write_rotationAngle) by reflexivity.
    cbn. rewrite !andb_false_r. reflexivity.
Qed.


(** C4, amended: in every tick the frame buffer is cleared first, then the
    three spin angles are advanced by [speed / 200], then the carpet is
    drawn cube by cube (for each cube its matrices are uploaded and then
    the draw call is issued), and last the next frame is requested.  No
    angle is written before the clear, and no upload or draw call comes
    before the angles are written. *)
Theorem animate_order (w : World) :
  exists w',
    animate w = Some (tt, w') /\
    state w' = advanced (state w) /\
    trace w' =
    trace w
    ++ [ gl_clearColor 0 0 0 1;
         gl_clear true true;
         write_rotationAngle axisX
           (xRotationAngle (state w) + xRotationSpeed (state w) / ofZ 200);
         write_rotationAngle axisY
           (yRotationAngle (state w) + yRotationSpeed (state w) / ofZ 200);
         write_rotationAngle axisZ
           (zRotationAngle (state w) + zRotationSpeed (state w) / ofZ 200) ]
    ++ carpet_events (advanced (state w)) (modelMatrix w)
         (carpetCubes (- (1)) (- (1)) (canvasSize (state w)) (stepSlider w))
    ++ [requestAnimationFrame] /\
    trace w' = trace w ++ animate_events w /\
    occurs_before is_clear is_write_rotationAngle (animate_events w) = true /\
    occurs_before is_write_rotationAngle is_clear (animate_events w) = false /\
    occurs_before is_drawArrays is_write_rotationAngle (animate_events w)
    = false /\
    occurs_before is_uniformMatrix4fv is_write_rotationAngle (animate_events w)
    = false /\
    (forall s found v c,
        occurs_before is_drawArrays is_uniformMatrix4fv (cube_events s found v c)
        = false).
Proof.
  exists (animated w).
  destruct (animate_events_order w) as (H1 & H2 & H3 & H4).
  split; [apply animate_run |].
  split; [reflexivity |].
  split; [reflexivity |].
  split; [reflexivity |].
  repeat (split; [assumption |]).
  intros s found v c. reflexivity.
Qed.

(** ** Zooming *)

Lemma ltb_lt (a b : Qc) : ltb a b = true <-> a < b.
Proof.
  unfold ltb, Qclt. rewrite negb_true_iff. split.
  - intro H. apply Qnot_le_lt. intro Hle.
    apply Qle_bool_iff in Hle. congruence.
  - intro H. destruct (Qle_bool b a) eqn:E; [| reflexivity].
    apply Qle_bool_iff in E. exfalso. exact (Qlt_not_le _ _ H E).
Qed.

Lemma ltb_ge (a b : Qc) : ltb a b = false <-> b <= a.
Proof.
  unfold ltb, Qcle. rewrite negb_false_iff. apply Qle_bool_iff.
Qed.

Lemma clamp_zoom_bounds (v : Qc) :
  lit 1 10 <= clamp_zoom v /\ clamp_zoom v <= ofZ 10.
Proof.
  unfold clamp_zoom, Math_min, Math_max.
  destruct (ltb v (lit 1 10)) eqn:E1.
  - replace (ltb (ofZ 10) (lit 1 10)) with false by reflexivity.
    split; [apply Qcle_refl | apply ltb_ge; reflexivity].
  - apply ltb_ge in E1. destruct (ltb (ofZ 10) v) eqn:E2.
    + split; [apply ltb_ge; reflexivity | apply Qcle_refl].
    + apply ltb_ge in E2. split; assumption.
Qed.

Lemma onCanvasWheel_run (deltaY : Qc) (w : World) :
  onCanvasWheel deltaY w
  = Some (tt,
          mkWorld
            (set_canvasScale
               (clamp_zoom
                  (if ltb 0 deltaY then canvasScale (state w) - lit 1 10
                   else if ltb deltaY 0 then canvasScale (state w) + lit 1 10
                   else canvasScale (state w)))
               (state w))
            (modelMatrix w) (stepSlider w) (xRotationSlider w)
            (yRotationSlider w) (zRotationSlider w)
            (trace w ++ [preventDefault])).
Proof.
  unfold onCanvasWheel. do 2 step. unfold put_state, clamp_zoom. world_simpl.
  destruct (ltb 0 deltaY); [reflexivity |].
  destruct (ltb deltaY 0); [reflexivity |].
  destruct (state w); reflexivity.
Qed.





(** ** Linear arithmetic on [Qc], through [Q] *)

Lemma this_Q2Qc (q : Q) : (this (Q2Qc q) == q)%Q.
Proof. unfold Q2Qc. cbn [this]. apply Qred_correct. Qed.

Lemma this_plus (x y : Qc) : (this (x + y) == this x + this y)%Q.
Proof. unfold Qcplus. apply this_Q2Qc. Qed.

Lemma this_mult (x y : Qc) : (this (x * y) == this x * this y)%Q.
Proof. unfold Qcmult. apply this_Q2Qc. Qed.

Lemma this_opp (x : Qc) : (this (- x) == - this x)%Q.
Proof. unfold Qcopp. apply this_Q2Qc. Qed.

Lemma this_minus (x y : Qc) : (this (x - y) == this x - this y)%Q.
Proof. unfold Qcminus. rewrite this_plus, this_opp. reflexivity. Qed.

Lemma this_ofZ (z : Z) : (this (ofZ z) == inject_Z z)%Q.
Proof. unfold ofZ. apply this_Q2Qc. Qed.

Lemma this_lit (n : Z) (d : positive) : (this (lit n d) == n # d)%Q.
Proof. unfold lit. apply this_Q2Qc. Qed.

Lemma this_div_pos (x : Qc) (p : positive) :
  (this (x / ofZ (Z.pos p)) == this x * (1 # p))%Q.
Proof.
  unfold Qcdiv, Qcinv. rewrite this_mult, this_Q2Qc, this_ofZ. reflexivity.
Qed.

Lemma Qc_eq_this (x y : Qc) : x = y <-> (this x == this y)%Q.
Proof. split; [intros ->; reflexivity | apply Qc_is_canon]. Qed.

(** ** Distinct centres *)

Lemma carpetCubes64_cells (x y sz : float) (iterations : nat) :
  Binary64.carpetCubes x y sz iterations =
  (Binary64.sub_carpet x y sz iterations 0 0
     ++ Binary64.sub_carpet x y sz iterations 0 1
     ++ Binary64.sub_carpet x y sz iterations 0 2 ++ [])
  ++ (Binary64.sub_carpet x y sz iterations 1 0
        ++ [Binary64.center_cube x y sz]
        ++ Binary64.sub_carpet x y sz iterations 1 2 ++ [])
  ++ (Binary64.sub_carpet x y sz iterations 2 0
        ++ Binary64.sub_carpet x y sz iterations 2 1
        ++ Binary64.sub_carpet x y sz iterations 2 2 ++ [])
  ++ [].
Proof. destruct iterations as [| [| k]]; reflexivity. Qed.

Lemma carpetCubes64_length (n : nat) :
  forall x y sz,
    length (Binary64.carpetCubes x y sz (S n)) = sum_pow8 (S n).
Proof.
  induction n as [| k IH]; intros x y sz; [reflexivity |].
  rewrite (sum_pow8_S (S k)), carpetCubes64_cells.
  unfold Binary64.sub_carpet. rewrite !length_app, !IH. cbn [length]. lia.
Qed.

(** The integer [grid a] is the floor of [2^20] times the number of [a], so
    that two binary64 with the same number have the same one. *)
Lemma grid_floor (a : float) :
  Binary64.grid a = Qfloor (Binary64.exact a * inject_Z (2 ^ 20))%Q.
Proof.
  unfold Binary64.grid, Binary64.exact.
  destruct (Prim2SF a) as [s | s | | s m e]; try reflexivity.
  set (n := if s then Z.neg m else Z.pos m).
  destruct (Z.leb_spec 0 e) as [He | He].
  - rewrite <- inject_Z_mult, Qfloor_Z, Z.shiftl_mul_pow2 by lia.
    rewrite Z.pow_add_r by lia. ring.
  - assert (HP : Z.pos (2 ^ Z.to_pos (- e)) = (2 ^ (- e))%Z).
    { rewrite Pos2Z.inj_pow, Z2Pos.id by lia. reflexivity. }
    unfold Qfloor, Qmult, inject_Z. cbn [Qnum Qden].
    rewrite Pos.mul_1_r, HP.
    destruct (Z.leb_spec 0 (e + 20)) as [Hk | Hk].
    + rewrite Z.shiftl_mul_pow2 by lia.
      replace (2 ^ 20)%Z with (2 ^ (e + 20) * 2 ^ (- e))%Z
        by (rewrite <- Z.pow_add_r by lia; f_equal; lia).
      rewrite Z.mul_assoc, Z.div_mul by (apply Z.pow_nonzero; lia).
      reflexivity.
    + rewrite <- (Z.opp_involutive (e + 20)), Z.shiftl_opp_r.
      rewrite Z.shiftr_div_pow2 by lia.
      replace (2 ^ (- e))%Z with (2 ^ (- (e + 20)) * 2 ^ 20)%Z
        by (rewrite <- Z.pow_add_r by lia; f_equal; lia).
      rewrite Z.div_mul_cancel_r; [reflexivity | |];
        apply Z.pow_nonzero; lia.
Qed.

Lemma grid_value (a b : float) :
  Binary64.value a = Binary64.value b -> Binary64.grid a = Binary64.grid b.
Proof.
  unfold Binary64.value. intro H. apply Q2Qc_eq_iff in H.
  rewrite !grid_floor. apply Qfloor_comp. rewrite H. reflexivity.
Qed.

Lemma grid_key_values (c c' : Binary64.vec3) :
  Binary64.values c = Binary64.values c' ->
  Binary64.grid_key c = Binary64.grid_key c'.
Proof.
  destruct c as [[x y] z], c' as [[x' y'] z']. cbn [Binary64.values].
  intro H.
  assert (Hx : Binary64.value x = Binary64.value x') by congruence.
  assert (Hy : Binary64.value y = Binary64.value y') by congruence.
  assert (Hz : Binary64.value z = Binary64.value z') by congruence.
  unfold Binary64.grid_key.
  rewrite (grid_value _ _ Hx), (grid_value _ _ Hy), (grid_value _ _ Hz).
  reflexivity.
Qed.

Lemma increasing_lt (l : list Z) (a x : Z) :
  increasing (a :: l) = true -> In x l -> (a < x)%Z.
Proof.
  revert a. induction l as [| b l IH]; intros a H Hin; [destruct Hin |].
  cbn [increasing] in H. apply andb_prop in H. destruct H as [Hab Ht].
  apply Z.ltb_lt in Hab. destruct Hin as [-> | Hin]; [exact Hab |].
  specialize (IH b Ht Hin). lia.
Qed.

Lemma increasing_NoDup (l : list Z) : increasing l = true -> NoDup l.
Proof.
  induction l as [| a l IH]; intro H; [constructor |].
  constructor.
  - intro Hin. pose proof (increasing_lt _ _ _ H Hin). lia.
  - apply IH. destruct l; [reflexivity |]. cbn [increasing] in H.
    apply andb_prop in H. apply H.
Qed.

Section Keys.

Context {A B : Type} (f : A -> B) (key : A -> Z).
Hypothesis key_f : forall a a', f a = f a' -> key a = key a'.

Lemma NoDup_map_key (l : list A) : NoDup (map key l) -> NoDup (map f l).
Proof.
  induction l as [| a l IH]; cbn [map]; intro H; [constructor |].
  inversion H as [| k ks Hnotin Hrest]; subst.
  constructor; [| apply IH; exact Hrest].
  intro Hin. apply Hnotin. apply in_map_iff in Hin.
  destruct Hin as (a' & Ha' & Hin). apply in_map_iff.
  exists a'. split; [apply key_f; exact Ha' | exact Hin].
Qed.

(** Keys that are strictly increasing once sorted are duplicate-free, and
    so is whatever they are keys of. *)
Lemma sorted_keys_NoDup (l : list A) :
  increasing (ZSort.sort (map key l)) = true -> NoDup (map f l).
Proof.
  intro H. apply NoDup_map_key. apply increasing_NoDup in H.
  eapply Permutation_NoDup; [| exact H].
  apply Permutation_sym, ZSort.Permuted_sort.
Qed.

End Keys.

Lemma page_keys_increasing :
  forallb (fun n => increasing (ZSort.sort
                      (map (fun p => Binary64.grid_key (Binary64.center p))
                           (Binary64.page n))))
          (seq 0 7) = true.
Proof. vm_compute. reflexivity. Qed.

Lemma page_centers_NoDup (n : nat) :
  (n <= 6)%nat ->
  NoDup (map (fun p => Binary64.values (Binary64.center p)) (Binary64.page n)).
Proof.
  intro Hn.
  apply (sorted_keys_NoDup _ (fun p => Binary64.grid_key (Binary64.center p))).
  - intros p q. apply grid_key_values.
  - pose proof page_keys_increasing as H.
    rewrite forallb_forall in H. apply H. apply in_seq. lia.
Qed.

(** C8, amended: the cubes [drawCarpet] draws are those of [carpetCubes],
    in order; for the carpet of the page, from [(-1, -1)] with size [2],
    and every number of iterations up to 6, the centres
    [(centerX, centerY, centerZ)] the binary64 arithmetic of lines 407-420
    produces are pairwise distinct numbers. *)
Theorem carpet_centers_distinct :
  (forall (x y sz : Qc) (iterations : nat) (w : World),
      drawCarpet x y sz iterations w
      = Some (tt, drawn_all (carpetCubes x y sz iterations) w) /\
      trace (drawn_all (carpetCubes x y sz iterations) w)
      = trace w ++ carpet_events (state w) (modelMatrix w)
                                 (carpetCubes x y sz iterations)) /\
  (forall (x y sz : float) (n : nat),
      length (Binary64.carpetCubes x y sz (S n)) = sum_pow8 (S n)) /\
  (forall n : nat,
      (n <= 6)%nat ->
      NoDup (map (fun p => Binary64.values (Binary64.center p))
                 (Binary64.page n)) /\
      forall i j p q,
        nth_error (Binary64.page n) i = Some p ->
        nth_error (Binary64.page n) j = Some q ->
        i <> j ->
        Binary64.values (Binary64.center p)
        <> Binary64.values (Binary64.center q)).
Proof.
  split; [| split].
  - intros x y sz iterations w.
    split; [apply drawCarpet_run | rewrite drawn_all_spec; reflexivity].
  - intros x y sz n. apply carpetCubes64_length.
  - intros n Hn. pose proof (page_centers_NoDup n Hn) as Hnd.
    split; [exact Hnd |].
    intros i j p q Hi Hj Hij Heq. apply Hij.
    apply (proj1 (NoDup_nth_error _) Hnd).
    + rewrite length_map. apply nth_error_Some. rewrite Hi. discriminate.
    + rewrite !nth_error_map, Hi, Hj. cbn [option_map]. f_equal. exact Heq.
Qed.


(** ** The pivot of the local spin *)

Lemma Qfloor_half (k : Z) : Qfloor (inject_Z k + (1 # 2)) = k.
Proof.
  pose proof (Qfloor_le (inject_Z k + (1 # 2))) as Hle.
  pose proof (Qlt_floor (inject_Z k + (1 # 2))) as Hlt.
  set (f := Qfloor (inject_Z k + (1 # 2))) in *.
  unfold Qle, Qlt, Qplus, inject_Z in *. cbn in *. lia.
Qed.

Lemma Math_round_ofZ (k : Z) : Math_round (ofZ k) = ofZ k.
Proof.
  assert (E : (this (ofZ k + lit 1 2) == inject_Z k + (1 # 2))%Q)
    by (rewrite this_plus, this_ofZ, this_lit; reflexivity).
  unfold Math_round. f_equal.
  rewrite <- (Qfloor_half k) at 2. exact (Qfloor_comp _ _ E).
Qed.

Lemma round4_fixed (v : Qc) : round4 v = v <-> multiple_of_1e4 v.
Proof.
  unfold round4, multiple_of_1e4. split.
  - intro H. unfold Math_round in H. eexists. symmetry. exact H.
  - intros [k ->].
    replace (ofZ k / ofZ 10000 * ofZ 10000) with (ofZ k)
      by (field; discriminate).
    rewrite Math_round_ofZ. reflexivity.
Qed.

Lemma carpetCubes64_in (x y sz : float) (n : nat) (p : Binary64.placement) :
  In p (Binary64.carpetCubes x y sz n) ->
  p = Binary64.center_cube x y sz \/
  exists i j, In i [0; 1; 2]%float /\ In j [0; 1; 2]%float /\
              In p (Binary64.sub_carpet x y sz n i j).
Proof.
  rewrite carpetCubes64_cells, ?in_app_iff. cbn [In]. intro Hin.
  repeat (destruct Hin as [Hin | Hin]); try contradiction;
    first [ left; symmetry; exact Hin
          | right; do 2 eexists; split; [| split; [| exact Hin]];
            cbn [In]; tauto ].
Qed.

Lemma thirds_succ (k : nat) (sz : float) :
  Binary64.thirds k (sz / 3)%float = Binary64.thirds (S k) sz.
Proof. unfold Binary64.thirds. rewrite Nat.iter_succ_r. reflexivity. Qed.

(** Every cube of a carpet has as side the size divided by three once per
    level, and its centre half a side above [z = 0]. *)
Lemma carpetCubes64_sizes (n : nat) :
  forall x y sz p,
    In p (Binary64.carpetCubes x y sz n) ->
    Binary64.centerZ p = (Binary64.size p / 2)%float /\
    exists k : nat,
      (1 <= k <= Nat.max 1 n)%nat /\
      Binary64.size p = Binary64.thirds k sz.
Proof.
  induction n as [| m IH]; intros x y sz p Hin;
    apply carpetCubes64_in in Hin;
    destruct Hin as [-> | (i & j & _ & _ & Hin)];
    try (split; [reflexivity |]; exists 1%nat; split; [lia | reflexivity]);
    unfold Binary64.sub_carpet in Hin; try contradiction.
  destruct m as [| k]; [contradiction |].
  apply IH in Hin. destruct Hin as (Hz & d & Hd & Hsize).
  split; [exact Hz |]. exists (S d). split; [lia |].
  rewrite Hsize. apply thirds_succ.
Qed.

Lemma page_sizes (n : nat) (p : Binary64.placement) :
  In p (Binary64.page n) ->
  Binary64.centerZ p = (Binary64.size p / 2)%float /\
  exists k, In k (seq 1 (Nat.max 1 n)) /\
            Binary64.size p = Binary64.thirds k 2.
Proof.
  intro Hin. apply carpetCubes64_sizes in Hin.
  destruct Hin as (Hz & k & Hk & Hs). split; [exact Hz |].
  exists k. split; [apply in_seq; lia | exact Hs].
Qed.

Lemma pivot64_axes (p : Binary64.placement) :
  Binary64.pivot p
  = (Binary64.pivot_xy (Binary64.centerX p) (Binary64.size p),
     Binary64.pivot_xy (Binary64.centerY p) (Binary64.size p),
     Binary64.pivot_z (Binary64.centerZ p) (Binary64.size p)).
Proof. reflexivity. Qed.

(** At each of the first twenty depths the pivot of a cube of the page is
    not at the height of its centre. *)
Lemma page_pivot_height :
  forallb (fun k => let s := Binary64.thirds k 2 in
                    negb (Qeq_bool
                            (Binary64.exact (Binary64.pivot_z (s / 2) s))
                            (Binary64.exact (s / 2)%float)))
          (seq 1 20) = true.
Proof. vm_compute. reflexivity. Qed.

Lemma page_pivot_not_center (n : nat) (p : Binary64.placement) :
  (n <= 20)%nat -> In p (Binary64.page n) ->
  Binary64.values (Binary64.pivot p) <> Binary64.values (Binary64.center p).
Proof.
  intros Hn Hin Heq.
  destruct (page_sizes n p Hin) as (Hz & k & Hk & Hs).
  pose proof page_pivot_height as HD. rewrite forallb_forall in HD.
  assert (Hk' : In k (seq 1 20)) by (apply in_seq; apply in_seq in Hk; lia).
  specialize (HD k Hk'). cbn zeta in HD. rewrite <- Hs, <- Hz in HD.
  apply negb_true_iff in HD.
  rewrite pivot64_axes in Heq. unfold Binary64.center in Heq.
  cbn [Binary64.values] in Heq.
  assert (E : Binary64.value
                (Binary64.pivot_z (Binary64.centerZ p) (Binary64.size p))
              = Binary64.value (Binary64.centerZ p)) by congruence.
  unfold Binary64.value in E. apply Q2Qc_eq_iff in E.
  apply Qeq_bool_iff in E. congruence.
Qed.

(** C10, amended: the pivot of the local spin is the midpoint of the
    entries 0-2 (front bottom left corner) and 24-26 (back top right
    corner) of the vertex array, each passed through
    [Math.round(v * 10000) / 10000], and it is this point that [drawCube]
    translates to and back from.  When the rounding leaves the six
    coordinates as they are, the pivot is the midpoint of the two corners
    as stored.  For every cube the page draws, at up to twenty iterations,
    the pivot is not the centre the cube was placed at. *)
Theorem pivot_rounded_midpoint :
  (forall (vertices : list Qc) (v0 v1 v2 v24 v25 v26 : Qc) (w : World),
      nth_error vertices 0 = Some v0 -> nth_error vertices 1 = Some v1 ->
      nth_error vertices 2 = Some v2 -> nth_error vertices 24 = Some v24 ->
      nth_error vertices 25 = Some v25 -> nth_error vertices 26 = Some v26 ->
      let cx := (round4 v0 + round4 v24) / ofZ 2 in
      let cy := (round4 v1 + round4 v25) / ofZ 2 in
      let cz := (round4 v2 + round4 v26) / ofZ 2 in
      let s := state w in
      cubeCenter vertices = Some (cx, cy, cz) /\
      (round4 v0 = v0 -> round4 v1 = v1 -> round4 v2 = v2 ->
       round4 v24 = v24 -> round4 v25 = v25 -> round4 v26 = v26 ->
       cubeCenter vertices
       = Some ((v0 + v24) / ofZ 2, (v1 + v25) / ofZ 2, (v2 + v26) / ofZ 2)) /\
      exists w',
        drawCube vertices w = Some (tt, w') /\
        modelMatrix w'
        = canvasRotationMatrix s
          *m Scale (canvasScale s, canvasScale s, canvasScale s)
          *m Translate (cx, cy, cz)
          *m RotX (xRotationAngle s) *m RotY (yRotationAngle s)
          *m RotZ (zRotationAngle s)
          *m Translate (- cx, - cy, - cz)) /\
  (forall x y z sz : Qc,
      let d := sz / ofZ 2 in
      let vertices := createCubeVertices x y z sz in
      nth_error vertices 0 = Some (x - d) /\
      nth_error vertices 1 = Some (y - d) /\
      nth_error vertices 2 = Some (z + d) /\
      nth_error vertices 24 = Some (x + d) /\
      nth_error vertices 25 = Some (y + d) /\
      nth_error vertices 26 = Some (z - d) /\
      cubeCenter vertices
      = Some ((round4 (x - d) + round4 (x + d)) / ofZ 2,
              (round4 (y - d) + round4 (y + d)) / ofZ 2,
              (round4 (z + d) + round4 (z - d)) / ofZ 2)) /\
  (forall v : Qc, round4 v = Math_round (v * ofZ 10000) / ofZ 10000) /\
  (forall x y z sz : float,
      let d := (sz / 2)%float in
      Binary64.cubeCenter (Binary64.createCubeVertices x y z sz)
      = Some ((Binary64.round4 (x - d) + Binary64.round4 (x + d)) / 2,
              (Binary64.round4 (y - d) + Binary64.round4 (y + d)) / 2,
              (Binary64.round4 (z + d) + Binary64.round4 (z - d)) / 2)%float) /\
  (forall v : float,
      Binary64.round4 v = (Binary64.Math_round (v * 10000) / 10000)%float) /\
  (forall (n : nat) (p : Binary64.placement),
      (n <= 20)%nat -> In p (Binary64.page n) ->
      Binary64.cubeCenter (Binary64.vertices_of p) = Some (Binary64.pivot p) /\
      Binary64.values (Binary64.pivot p)
      <> Binary64.values (Binary64.center p)).
Proof.
  split; [| split; [| split; [| split; [| split]]]].
  - intros vertices v0 v1 v2 v24 v25 v26 w H0 H1 H2 H24 H25 H26 cx cy cz s.
    assert (Hc : cubeCenter vertices = Some (cx, cy, cz)).
    { unfold cubeCenter, index. rewrite H0, H1, H2, H24, H25, H26. reflexivity. }
    split; [exact Hc |]. split.
    + intros E0 E1 E2 E24 E25 E26. rewrite Hc. unfold cx, cy, cz.
      rewrite E0, E1, E2, E24, E25, E26. reflexivity.
    + exists (drawn vertices (cx, cy, cz) w).
      split; [apply drawCube_run; exact Hc | apply computeModelMatrix_spec].
  - intros x y z sz d vertices. repeat split.
  - reflexivity.
  - reflexivity.
  - reflexivity.
  - intros n p Hn Hin.
    split; [reflexivity | exact (page_pivot_not_center n p Hn Hin)].
Qed.

(** ** The normal matrix *)

Lemma RotX_0 : Math_cos 0 = 1 -> Math_sin 0 = 0 -> RotX 0 = mat4_create.
Proof. intros Hc Hs. unfold RotX. rewrite Hc, Hs. apply mat4_eq; cbn; ring. Qed.

Lemma RotY_0 : Math_cos 0 = 1 -> Math_sin 0 = 0 -> RotY 0 = mat4_create.
Proof. intros Hc Hs. unfold RotY. rewrite Hc, Hs. apply mat4_eq; cbn; ring. Qed.

Lemma RotZ_0 : Math_cos 0 = 1 -> Math_sin 0 = 0 -> RotZ 0 = mat4_create.
Proof. intros Hc Hs. unfold RotZ. rewrite Hc, Hs. apply mat4_eq; cbn; ring. Qed.

Lemma stale_differs :
  Math_cos 0 = 1 -> Math_sin 0 = 0 ->
  mat4_transpose (mat4_invert mat4_create (modelMatrix zoomed_world))
  <> mat4_transpose
       (mat4_invert mat4_create
          (computeModelMatrix (state zoomed_world)
             (pivot (mkPlacement 0 0 (lit 1 3) (lit 2 3))))).
Proof.
  intros Hc Hs Heq. unfold pivot in Heq.
  rewrite computeModelMatrix_spec in Heq.
  unfold zoomed_world, initial_state in Heq. cbn [state modelMatrix] in Heq.
  cbn [set_canvasScale xRotationAngle yRotationAngle zRotationAngle
       canvasScale canvasRotationMatrix] in Heq.
  rewrite (RotX_0 Hc Hs), (RotY_0 Hc Hs), (RotZ_0 Hc Hs) in Heq.
  apply (f_equal (fun m => Qeq_bool (e0 m) 1)) in Heq.
  vm_compute in Heq. discriminate.
Qed.


Lemma normal_of_identity :
  mat4_transpose (mat4_invert mat4_create mat4_create) = mat4_create.
Proof. apply mat4_eq; qc_compute. Qed.

(** C9: the normal matrix a call of [drawCube] uploads is the transposed
    inverse of the [modelMatrix] the call finds, that is, of the matrix the
    previous call left (the identity for the first call of all); the model
    matrix of the cube being drawn is built, and uploaded, only afterwards.
    The two can differ: after a zoom the stale one is not the transposed
    inverse of the new one. *)
Theorem normalMatrix_from_previous_call (v1 v2 : list Qc) (c1 c2 : vec3)
  (w : World) :
  cubeCenter v1 = Some c1 -> cubeCenter v2 = Some c2 ->
  let normal_of m := mat4_transpose (mat4_invert mat4_create m) in
  (exists w1 w2,
      drawCube v1 w = Some (tt, w1) /\
      drawCube v2 w1 = Some (tt, w2) /\
      uploads uNormalMatrix (trace w1)
      = uploads uNormalMatrix (trace w) ++ [normal_of (modelMatrix w)] /\
      modelMatrix w1 = computeModelMatrix (state w) c1 /\
      uploads uModelMatrix (trace w1)
      = uploads uModelMatrix (trace w) ++ [computeModelMatrix (state w) c1] /\
      uploads uNormalMatrix (trace w2)
      = uploads uNormalMatrix (trace w)
        ++ [normal_of (modelMatrix w);
            normal_of (computeModelMatrix (state w) c1)] /\
      occurs_before
        (fun e => match e with
                  | gl_uniformMatrix4fv uModelMatrix _ => true
                  | _ => false
                  end)
        (fun e => match e with
                  | gl_uniformMatrix4fv uNormalMatrix _ => true
                  | _ => false
                  end)
        (cube_events (state w) (modelMatrix w) v1 c1) = false) /\
  (mat4_determinant (modelMatrix w) <> 0 ->
   modelMatrix w *m mat4_invert mat4_create (modelMatrix w) = mat4_create) /\
  (forall steps, modelMatrix (initial_world steps) = mat4_create) /\
  normal_of mat4_create = mat4_create /\
  (Math_cos 0 = 1 -> Math_sin 0 = 0 ->
   let first_cube := mkPlacement 0 0 (lit 1 3) (lit 2 3) in
   carpetCubes (- (1)) (- (1)) (canvasSize (state zoomed_world)) 1
   = [first_cube] /\
   exists w',
     drawCube (vertices_of first_cube) zoomed_world = Some (tt, w') /\
     uploads uNormalMatrix (trace w') = [normal_of mat4_create] /\
     uploads uModelMatrix (trace w') = [modelMatrix w'] /\
     normal_of mat4_create <> normal_of (modelMatrix w')).
Proof.
  intros H1 H2 normal_of.
  split; [| split; [| split; [| split]]].
  - exists (drawn v1 c1 w), (drawn v2 c2 (drawn v1 c1 w)).
    split; [apply drawCube_run; exact H1 |].
    split; [apply drawCube_run; exact H2 |].
    unfold drawn. world_simpl. rewrite !uploads_app.
    unfold cube_events. cbn [uploads uniform_eqb].
    rewrite <- !app_assoc.
    repeat (split; [reflexivity |]). reflexivity.
  - apply mat4_invert_right.
  - reflexivity.
  - apply normal_of_identity.
  - intros Hc Hs first_cube.
    split; [exact carpetCubes_first |].
    exists (drawn (vertices_of first_cube) (pivot first_cube) zoomed_world).
    split; [apply drawCube_run; reflexivity |].
    split; [reflexivity |]. split; [reflexivity |].
    exact (stale_differs Hc Hs).
Qed.

(** ** Dragging *)

Section Drag.

(** The two axes [handleMouseMove] rotates about have length one. *)
Hypothesis hypot_axis_y : Math_hypot 0 1 0 = 1.
Hypothesis hypot_axis_x : Math_hypot 1 0 0 = 1.

Lemma mat4_rotate_axis_y (out a : mat4) (rad : Qc) :
  mat4_rotate out a rad (0, 1, 0) = a *m RotY rad.
Proof.
  unfold mat4_rotate. rewrite hypot_axis_y.
  replace (ltb 1 EPSILON) with false by reflexivity.
  apply mat4_eq; cbn; field; discriminate.
Qed.

Lemma mat4_rotate_axis_x (out a : mat4) (rad : Qc) :
  mat4_rotate out a rad (1, 0, 0) = a *m RotX rad.
Proof.
  unfold mat4_rotate. rewrite hypot_axis_x.
  replace (ltb 1 EPSILON) with false by reflexivity.
  apply mat4_eq; cbn; field; discriminate.
Qed.

Lemma handleMouseMove_run (clientX clientY : Qc) (w : World) :
  mouseDown (state w) = true ->
  handleMouseMove clientX clientY w
  = Some (tt,
          mkWorld
            (set_lastMouse (Some clientX) (Some clientY)
               (set_canvasRotationMatrix
                  (drag_increment (dragSensitivity (state w))
                     (clientX - or_null (lastMouseX (state w)))
                     (clientY - or_null (lastMouseY (state w)))
                   *m canvasRotationMatrix (state w))
                  (state w)))
            (modelMatrix w) (stepSlider w) (xRotationSlider w)
            (yRotationSlider w) (zRotationSlider w) (trace w)).
Proof.
  intro Hdown. unfold handleMouseMove. rewrite get_state_bind, Hdown.
  cbn [negb]. unfold mat4_identity.
  rewrite mat4_rotate_axis_y, mat4_rotate_axis_x, mat4_multiply_1_l.
  reflexivity.
Qed.


(** C5: while the button is down, a pointer move replaces the accumulated
    rotation by [(RotY(k*deltaX) * RotX(k*deltaY)) * dragRotation]; two moves
    in a row give the second increment times the first times the rotation
    they started from, whichever way the product is bracketed. *)
Theorem drag_rotation_left_multiply (x1 y1 x2 y2 : Qc) (w : World) :
  mouseDown (state w) = true ->
  let k := dragSensitivity (state w) in
  let deltaX1 := x1 - or_null (lastMouseX (state w)) in
  let deltaY1 := y1 - or_null (lastMouseY (state w)) in
  let deltaX2 := x2 - x1 in
  let deltaY2 := y2 - y1 in
  (exists w1,
      handleMouseMove x1 y1 w = Some (tt, w1) /\
      canvasRotationMatrix (state w1)
      = (RotY (k * deltaX1) *m RotX (k * deltaY1))
        *m canvasRotationMatrix (state w) /\
      lastMouseX (state w1) = Some x1 /\ lastMouseY (state w1) = Some y1 /\
      mouseDown (state w1) = true) /\
  (exists w2,
      (handleMouseMove x1 y1 ;; handleMouseMove x2 y2) w = Some (tt, w2) /\
      canvasRotationMatrix (state w2)
      = (drag_increment k deltaX2 deltaY2 *m drag_increment k deltaX1 deltaY1)
        *m canvasRotationMatrix (state w) /\
      canvasRotationMatrix (state w2)
      = drag_increment k deltaX2 deltaY2
        *m (drag_increment k deltaX1 deltaY1
            *m canvasRotationMatrix (state w))).
Proof.
  intros Hdown k deltaX1 deltaY1 deltaX2 deltaY2.
  pose proof (handleMouseMove_run x1 y1 w Hdown) as H1.
  split.
  - eexists. split; [exact H1 |]. world_simpl. state_simpl. auto.
  - eexists. split.
    + rewrite (bind_Some _ _ _ _ _ H1). apply handleMouseMove_run.
      world_simpl. state_simpl. exact Hdown.
    + world_simpl. state_simpl. or_null_simpl. split; [| reflexivity].
      rewrite mat4_multiply_assoc. reflexivity.
Qed.

End Drag.


(** * Further properties of the code *)

(** ** Geometry of one cube *)

Lemma buffers_app (t1 t2 : list event) :
  buffers (t1 ++ t2) = buffers t1 ++ buffers t2.
Proof.
  induction t1 as [| e t1 IH]; [reflexivity |].
  destruct e; cbn [app buffers]; try exact IH. f_equal. exact IH.
Qed.

Lemma draw_counts_app (t1 t2 : list event) :
  draw_counts (t1 ++ t2) = draw_counts t1 ++ draw_counts t2.
Proof.
  induction t1 as [| e t1 IH]; [reflexivity |].
  destruct e; cbn [app draw_counts]; try exact IH. f_equal. exact IH.
Qed.

(** X1: with no iteration budget at all, [drawCarpet] behaves as with a
    budget of one: it draws the centre cube and nothing else. *)
Theorem drawCarpet_zero_iterations (x y sz : Qc) (w : World) :
  drawCarpet x y sz 0 w = drawCarpet x y sz 1 w /\
  carpetCubes x y sz 0 = [center_cube x y sz] /\
  exists w',
    drawCarpet x y sz 0 w = Some (tt, w') /\
    count_drawArrays (trace w') = S (count_drawArrays (trace w)).
Proof.
  split; [rewrite !drawCarpet_run; reflexivity |]. split; [reflexivity |].
  exists (drawn_all (carpetCubes x y sz 0) w).
  split; [apply drawCarpet_run |].
  rewrite count_drawArrays_drawn_all.
  change (carpetCubes x y sz 0) with [center_cube x y sz].
  cbn [length]. lia.
Qed.

Ltac in_list := cbn [In]; repeat (first [left; reflexivity | right]).

(** X2: the 108 numbers of [createCubeVertices] are 36 vertices, every one
    a corner of the cube and every corner among them; they come as six
    faces of six vertices, each face in one of the six planes of the cube
    and made of two triangles that share the diagonal from its first to its
    third vertex. *)
Theorem createCubeVertices_faces (x y z sz : Qc) :
  let d := sz / ofZ 2 in
  let vs := triples (createCubeVertices x y z sz) in
  let face k := firstn 6 (skipn (6 * k) vs) in
  length (createCubeVertices x y z sz) = 108%nat /\
  length vs = 36%nat /\
  Forall (fun v => In v (corners x y z d)) vs /\
  Forall (fun c => In c vs) (corners x y z d) /\
  Forall (fun v : vec3 => snd v = z + d) (face 0%nat) /\
  Forall (fun v : vec3 => snd v = z - d) (face 1%nat) /\
  Forall (fun v : vec3 => snd (fst v) = y + d) (face 2%nat) /\
  Forall (fun v : vec3 => snd (fst v) = y - d) (face 3%nat) /\
  Forall (fun v : vec3 => fst (fst v) = x + d) (face 4%nat) /\
  Forall (fun v : vec3 => fst (fst v) = x - d) (face 5%nat) /\
  Forall (fun k =>
            exists a b c e, face k = [a; b; c; a; c; e])
         [0; 1; 2; 3; 4; 5]%nat.
Proof.
  intros d vs face. unfold face, vs, createCubeVertices, corners.
  fold d.
  cbn [triples firstn skipn Nat.mul Nat.add length].
  split; [reflexivity |]. split; [reflexivity |].
  split; [repeat (apply Forall_cons; [in_list |]); apply Forall_nil |].
  split; [repeat (apply Forall_cons; [in_list |]); apply Forall_nil |].
  do 6 (split; [repeat (apply Forall_cons; [reflexivity |]); apply Forall_nil |]).
  repeat (apply Forall_cons; [do 4 eexists; reflexivity |]); apply Forall_nil.
Qed.

Lemma carpet_events_buffers (s : State) (cubes : list placement) :
  forall found,
    buffers (carpet_events s found cubes)
    = flat_map (fun p => [vertices_of p; createCubeTextureCoordinates]) cubes /\
    draw_counts (carpet_events s found cubes)
    = repeat (ofZ 36) (length cubes).
Proof.
  induction cubes as [| p rest IH]; intro found; [split; reflexivity |].
  cbn [carpet_events flat_map length repeat].
  rewrite buffers_app, draw_counts_app.
  destruct (IH (computeModelMatrix s (pivot p))) as [-> ->].
  split; [reflexivity |].
  unfold cube_events. cbn [draw_counts app].
  f_equal. change (length (vertices_of p)) with 108%nat. qc_compute.
Qed.

(** X3: what a frame hands to the GPU as geometry depends on the canvas
    size and the step slider alone: for every cube of the carpet, in order,
    its 108 vertex coordinates and then the 72 texture coordinates, which
    is one pair per vertex; every draw call draws 36 vertices.  Zoom, drag
    and spin reach the GPU through the matrices only. *)
Theorem frame_geometry (w : World) :
  let cubes :=
    carpetCubes (- (1)) (- (1)) (canvasSize (state w)) (stepSlider w) in
  buffers (animate_events w)
  = flat_map (fun p => [vertices_of p; createCubeTextureCoordinates]) cubes /\
  draw_counts (animate_events w) = repeat (ofZ 36) (length cubes) /\
  (forall p, length (vertices_of p) = 108%nat) /\
  length createCubeTextureCoordinates = 72%nat /\
  ofZ 108 / ofZ 3 = ofZ 36 /\ ofZ 72 / ofZ 2 = ofZ 36.
Proof.
  intro cubes. unfold animate_events.
  rewrite !buffers_app, !draw_counts_app.
  destruct (carpet_events_buffers (advanced (state w)) cubes (modelMatrix w))
    as [Hb Hd].
  fold cubes. rewrite Hb, Hd. cbn [buffers draw_counts app].
  rewrite !app_nil_r.
  repeat (split; [reflexivity |]). split; qc_compute.
Qed.


(** ** Where the cubes of a carpet lie *)

Lemma axis_sub (x sz : float) (n : nat) (i : float) (e : float * float) :
  In i [0; 1; 2]%float ->
  In e (Binary64.axis (x + i * (sz / 3))%float (sz / 3)%float (S n)) ->
  In e (Binary64.axis x sz (S (S n))).
Proof.
  intros Hi He. cbn [Binary64.axis]. right. apply in_flat_map.
  exists i. split; assumption.
Qed.

(** The centre of a cube and its side are, along X and along Y, a pair of
    the axis. *)
Lemma carpetCubes64_axes (n : nat) :
  forall x y sz p,
    In p (Binary64.carpetCubes x y sz n) ->
    In (Binary64.centerX p, Binary64.size p) (Binary64.axis x sz n) /\
    In (Binary64.centerY p, Binary64.size p) (Binary64.axis y sz n).
Proof.
  induction n as [| m IH]; intros x y sz p Hin;
    apply carpetCubes64_in in Hin;
    destruct Hin as [-> | (i & j & Hi & Hj & Hin)];
    try (split; left; reflexivity);
    unfold Binary64.sub_carpet in Hin; try contradiction.
  destruct m as [| k]; [contradiction |].
  apply IH in Hin. destruct Hin as [Hx Hy].
  split; [exact (axis_sub _ _ _ i _ Hi Hx) | exact (axis_sub _ _ _ j _ Hj Hy)].
Qed.

Lemma page_axes (n : nat) (f : float -> float -> bool) (p : Binary64.placement) :
  Binary64.axis_check f n = true -> In p (Binary64.page n) ->
  f (Binary64.centerX p) (Binary64.size p) = true /\
  f (Binary64.centerY p) (Binary64.size p) = true.
Proof.
  unfold Binary64.axis_check. rewrite forallb_forall. intros H Hin.
  destruct (carpetCubes64_axes _ _ _ _ _ Hin) as [Hx Hy].
  split; [exact (H _ Hx) | exact (H _ Hy)].
Qed.

Lemma this_value (a : float) : (this (Binary64.value a) == Binary64.exact a)%Q.
Proof. apply this_Q2Qc. Qed.

Lemma inside_spec (c s : float) :
  Binary64.inside c s = true ->
  0 < Binary64.value s /\
  - (1) <= Binary64.value c - Binary64.value s / ofZ 2 /\
  Binary64.value c + Binary64.value s / ofZ 2 <= 1.
Proof.
  unfold Binary64.inside.
  rewrite !andb_true_iff, negb_true_iff, !Qle_bool_iff.
  intros [[[H0 Hne] H1] H2].
  assert (Hne' : ~ (0 == Binary64.exact s)%Q).
  { intro E. apply Qeq_bool_iff in E. congruence. }
  unfold Qclt, Qcle.
  rewrite this_minus, this_plus, this_opp, !this_div_pos, !this_value.
  change (this 0) with 0%Q. change (this 1) with 1%Q.
  repeat split; lra.
Qed.

Lemma page_axis_inside :
  forallb (Binary64.axis_check Binary64.inside) (seq 0 7) = true.
Proof. vm_compute. reflexivity. Qed.

Lemma page_rests_on_plane :
  forallb (fun k => let s := Binary64.thirds k 2 in
                    is_finite s
                    && Qeq_bool (Binary64.exact (s / 2 - s / 2)%float) 0)
          (seq 1 6) = true.
Proof. vm_compute. reflexivity. Qed.

(** X4: in binary64 every cube of a carpet has as side the size divided by
    three once per level of its depth, each quotient rounded, the depth
    being between 1 and the iteration budget, and its centre half a side
    above the plane [z = 0].  For the carpet of the page, at up to six
    iterations, the side is positive, the cube rests on that plane, and its
    square lies inside the square from [-1] to [1] of the carpet. *)
Theorem carpet_cube_placement :
  (forall (x y sz : float) (iterations : nat) (p : Binary64.placement),
      In p (Binary64.carpetCubes x y sz iterations) ->
      Binary64.centerZ p = (Binary64.size p / 2)%float /\
      exists k : nat,
        (1 <= k <= Nat.max 1 iterations)%nat /\
        Binary64.size p = Nat.iter k (fun s => (s / 3)%float) sz) /\
  (forall (iterations : nat) (p : Binary64.placement),
      (iterations <= 6)%nat -> In p (Binary64.page iterations) ->
      0 < Binary64.value (Binary64.size p) /\
      Binary64.value (Binary64.centerZ p - Binary64.size p / 2)%float = 0 /\
      - (1) <= Binary64.value (Binary64.centerX p)
               - Binary64.value (Binary64.size p) / ofZ 2 /\
      Binary64.value (Binary64.centerX p)
      + Binary64.value (Binary64.size p) / ofZ 2 <= 1 /\
      - (1) <= Binary64.value (Binary64.centerY p)
               - Binary64.value (Binary64.size p) / ofZ 2 /\
      Binary64.value (Binary64.centerY p)
      + Binary64.value (Binary64.size p) / ofZ 2 <= 1).
Proof.
  split.
  - intros x y sz n p Hin. exact (carpetCubes64_sizes n x y sz p Hin).
  - intros n p Hn Hin.
    pose proof page_axis_inside as HA. rewrite forallb_forall in HA.
    specialize (HA n ltac:(apply in_seq; lia)).
    destruct (page_axes n _ p HA Hin) as [Hx Hy].
    apply inside_spec in Hx, Hy.
    destruct (page_sizes n p Hin) as (Hz & k & Hk & Hs).
    pose proof page_rests_on_plane as HP. rewrite forallb_forall in HP.
    assert (Hk' : In k (seq 1 6)) by (apply in_seq; apply in_seq in Hk; lia).
    specialize (HP k Hk'). cbn zeta in HP. rewrite <- Hs in HP.
    apply andb_true_iff in HP. destruct HP as [_ HP].
    split; [tauto |]. split; [| tauto].
    rewrite Hz. apply Qc_is_canon. rewrite this_value.
    apply Qeq_bool_iff. exact HP.
Qed.

(** ** The pivot and the spin *)

Lemma within_spec (n : Z) (d : positive) (a b : float) :
  Binary64.within (n # d) a b = true ->
  Binary64.value b - lit n d <= Binary64.value a /\
  Binary64.value a <= Binary64.value b + lit n d.
Proof.
  unfold Binary64.within. rewrite !andb_true_iff, !Qle_bool_iff.
  intros [[_ H1] H2].
  unfold Qcle. rewrite this_minus, this_plus, this_lit, !this_value.
  split; lra.
Qed.

Lemma page_axis_pivot :
  forallb (Binary64.axis_check
             (fun c s => Binary64.within (1 # 20000) (Binary64.pivot_xy c s) c))
          (seq 0 7)
  = true.
Proof. vm_compute. reflexivity. Qed.

Lemma page_depth_pivot :
  forallb (fun k => let s := Binary64.thirds k 2 in
                    Binary64.within (1 # 20000)
                      (Binary64.pivot_z (s / 2) s) (s / 2)%float)
          (seq 1 6) = true.
Proof. vm_compute. reflexivity. Qed.

(** X6: for every cube of the page, at up to six iterations, the pivot
    [drawCube] computes in binary64 is within [0.00005] of the cube's centre
    in every coordinate.  It is not so for every cube: the one centred at
    [0] with side [0.0007] has corners at [-0.00035] and [0.00035], which
    round to [-0.0003] and [0.0004], and its pivot is at
    [5.000000000000002e-05]. *)
Theorem pivot_error :
  (forall (iterations : nat) (p : Binary64.placement),
      (iterations <= 6)%nat -> In p (Binary64.page iterations) ->
      let '(px, py, pz) := Binary64.pivot p in
      Binary64.value (Binary64.centerX p) - lit 1 20000 <= Binary64.value px /\
      Binary64.value px <= Binary64.value (Binary64.centerX p) + lit 1 20000 /\
      Binary64.value (Binary64.centerY p) - lit 1 20000 <= Binary64.value py /\
      Binary64.value py <= Binary64.value (Binary64.centerY p) + lit 1 20000 /\
      Binary64.value (Binary64.centerZ p) - lit 1 20000 <= Binary64.value pz /\
      Binary64.value pz <= Binary64.value (Binary64.centerZ p) + lit 1 20000) /\
  Binary64.pivot (Binary64.mkPlacement 0 0 0 0.0007)
  = (5.000000000000002e-05, 5.000000000000002e-05,
     5.000000000000002e-05)%float /\
  Binary64.round4 (-0.00035) = (-0.0003)%float /\
  Binary64.round4 0.00035 = 0.0004%float /\
  lit 1 20000 < Binary64.value 5.000000000000002e-05.
Proof.
  split.
  - intros n p Hn Hin. rewrite pivot64_axes.
    pose proof page_axis_pivot as HA. rewrite forallb_forall in HA.
    specialize (HA n ltac:(apply in_seq; lia)).
    destruct (page_axes n _ p HA Hin) as [Hx Hy].
    apply within_spec in Hx, Hy.
    destruct (page_sizes n p Hin) as (Hz & k & Hk & Hs).
    pose proof page_depth_pivot as HD. rewrite forallb_forall in HD.
    assert (Hk' : In k (seq 1 6)) by (apply in_seq; apply in_seq in Hk; lia).
    specialize (HD k Hk'). cbn zeta in HD. rewrite <- Hs, <- Hz in HD.
    apply within_spec in HD. tauto.
  - do 3 (split; [vm_compute; reflexivity |]). vm_compute. reflexivity.
Qed.

Lemma vec4_eq (a b c d a' b' c' d' : Qc) :
  a = a' -> b = b' -> c = c' -> d = d' -> (a, b, c, d) = (a', b', c', d').
Proof. intros; subst; reflexivity. Qed.

Ltac vec4_ring := cbn; apply vec4_eq; ring.

Lemma mat4_mul_vec4_multiply (a b : mat4) (v : vec4) :
  mat4_mul_vec4 (a *m b) v = mat4_mul_vec4 a (mat4_mul_vec4 b v).
Proof. destruct v as [[[x y] z] t]. vec4_ring. Qed.

Lemma Translate_back (x y z : Qc) :
  mat4_mul_vec4 (Translate (- x, - y, - z)) (x, y, z, 1) = (0, 0, 0, 1).
Proof. vec4_ring. Qed.

Lemma Translate_origin (x y z : Qc) :
  mat4_mul_vec4 (Translate (x, y, z)) (0, 0, 0, 1) = (x, y, z, 1).
Proof. vec4_ring. Qed.

Lemma RotX_origin (r : Qc) : mat4_mul_vec4 (RotX r) (0, 0, 0, 1) = (0, 0, 0, 1).
Proof. vec4_ring. Qed.

Lemma RotY_origin (r : Qc) : mat4_mul_vec4 (RotY r) (0, 0, 0, 1) = (0, 0, 0, 1).
Proof. vec4_ring. Qed.

Lemma RotZ_origin (r : Qc) : mat4_mul_vec4 (RotZ r) (0, 0, 0, 1) = (0, 0, 0, 1).
Proof. vec4_ring. Qed.

(** X7: the spin never moves the pivot: the vertex shader sends the pivot of
    a cube to the point the drag rotation and the zoom alone send it to,
    whatever the three spin angles (and whatever [Math.cos] and [Math.sin]
    return). *)
Theorem spin_fixes_pivot (s : State) (cx cy cz : Qc) :
  gl_Position (computeModelMatrix s (cx, cy, cz)) viewMatrix projectionMatrix
              (cx, cy, cz)
  = mat4_mul_vec4
      (canvasRotationMatrix s
       *m Scale (canvasScale s, canvasScale s, canvasScale s))
      (cx, cy, cz, 1).
Proof.
  unfold gl_Position, viewMatrix, projectionMatrix.
  rewrite !mat4_multiply_1_l, computeModelMatrix_spec.
  rewrite !mat4_mul_vec4_multiply.
  rewrite Translate_back, RotZ_origin, RotY_origin, RotX_origin, Translate_origin.
  reflexivity.
Qed.

(** ** The normal matrices of a frame *)

Lemma last_cons_default {A} (l : list A) (a d d' : A) :
  last (a :: l) d = last (a :: l) d'.
Proof.
  revert a. induction l as [| b l IH]; intro a; [reflexivity |].
  change (last (b :: l) d = last (b :: l) d'). apply IH.
Qed.

Lemma carpet_events_uploads (s : State) (cubes : list placement) :
  forall found,
    uploads uNormalMatrix (carpet_events s found cubes)
    = map (fun m => mat4_transpose (mat4_invert mat4_create m))
          (removelast
             (found :: uploads uModelMatrix (carpet_events s found cubes))) /\
    last (found :: uploads uModelMatrix (carpet_events s found cubes)) found
    = final_modelMatrix s found cubes.
Proof.
  induction cubes as [| p rest IH]; intro found; [split; reflexivity |].
  cbn [carpet_events final_modelMatrix]. rewrite !uploads_app.
  destruct (IH (computeModelMatrix s (pivot p))) as [IH1 IH2].
  unfold cube_events. cbn [uploads uniform_eqb app].
  rewrite IH1. split.
  - cbn [removelast map]. reflexivity.
  - rewrite <- IH2.
    change (last (found :: ?a :: ?l) found) with (last (a :: l) found).
    apply last_cons_default.
Qed.

(** X8: over a whole frame the normal matrices uploaded are the transposed
    inverses of the model matrices one call behind: of the matrix the frame
    found, then of every model matrix of the frame but the last, which is
    left for the first cube of the next frame. *)
Theorem frame_normal_matrices (w : World) :
  let normal_of m := mat4_transpose (mat4_invert mat4_create m) in
  let models := uploads uModelMatrix (animate_events w) in
  uploads uNormalMatrix (animate_events w)
  = map normal_of (removelast (modelMatrix w :: models)) /\
  length (uploads uNormalMatrix (animate_events w)) = length models /\
  exists w',
    animate w = Some (tt, w') /\
    modelMatrix w' = last (modelMatrix w :: models) (modelMatrix w).
Proof.
  intros normal_of models. unfold models, animate_events.
  rewrite !uploads_app. cbn [uploads app]. rewrite !app_nil_r.
  destruct (carpet_events_uploads (advanced (state w))
              (carpetCubes (- (1)) (- (1)) (canvasSize (state w)) (stepSlider w))
              (modelMatrix w)) as [H1 H2].
  split; [exact H1 |]. split.
  - rewrite H1, length_map.
    match goal with |- context [removelast (?a :: ?l)] =>
      generalize l; intro l0; generalize a; induction l0 as [| b l0 IHl];
        intro a0; [reflexivity | ] end.
    change (removelast (a0 :: b :: l0)) with (a0 :: removelast (b :: l0)).
    cbn [length]. rewrite IHl. reflexivity.
  - exists (animated w). split; [apply animate_run |].
    rewrite H2. reflexivity.
Qed.


(** ** Pointer and wheel *)

Lemma handleMouseMove_idle (x y : Qc) (w : World) :
  mouseDown (state w) = false -> handleMouseMove x y w = Some (tt, w).
Proof.
  intro H. unfold handleMouseMove. rewrite get_state_bind, H. reflexivity.
Qed.

Lemma handleMouseUp_run (w : World) :
  handleMouseUp w
  = Some (tt, mkWorld (set_mouseDown false (state w)) (modelMatrix w)
                      (stepSlider w) (xRotationSlider w) (yRotationSlider w)
                      (zRotationSlider w) (trace w)).
Proof. reflexivity. Qed.

(** X9: a pointer move with the button up changes nothing at all; once the
    button is released (or the pointer leaves), no sequence of moves
    changes the world, so the rotation stays what the drag left. *)
Theorem moves_after_release :
  (forall x y w,
      mouseDown (state w) = false -> handleMouseMove x y w = Some (tt, w)) /\
  (forall (moves : list (Qc * Qc)) (w : World),
      exists w1,
        handleMouseUp w = Some (tt, w1) /\
        canvasRotationMatrix (state w1) = canvasRotationMatrix (state w) /\
        for_ moves (fun m => handleMouseMove (fst m) (snd m)) w1
        = Some (tt, w1)).
Proof.
  split; [exact handleMouseMove_idle |].
  intros moves w.
  set (w1 := mkWorld (set_mouseDown false (state w)) (modelMatrix w)
                     (stepSlider w) (xRotationSlider w) (yRotationSlider w)
                     (zRotationSlider w) (trace w)).
  assert (Hup : mouseDown (state w1) = false) by reflexivity.
  exists w1. split; [apply handleMouseUp_run |].
  split; [reflexivity |].
  induction moves as [| m moves IH]; [reflexivity |].
  cbn [for_].
  rewrite (bind_Some _ _ w1 w1 tt (handleMouseMove_idle (fst m) (snd m) w1 Hup)).
  exact IH.
Qed.

Lemma wheels64_out (deltas : list float) :
  Forall (fun d => (0 <? d)%float = true) deltas ->
  forall scale,
    Binary64.wheels deltas scale
    = Nat.iter (length deltas) (Binary64.onCanvasWheel 1) scale.
Proof.
  induction 1 as [| d deltas Hd _ IH]; intro scale; [reflexivity |].
  cbn [length]. rewrite Nat.iter_succ_r, <- IH.
  unfold Binary64.wheels. cbn [fold_left]. f_equal.
  unfold Binary64.onCanvasWheel. rewrite Hd. reflexivity.
Qed.

Lemma wheels64_in (deltas : list float) :
  Forall (fun d => (0 <? d)%float = false /\ (d <? 0)%float = true) deltas ->
  forall scale,
    Binary64.wheels deltas scale
    = Nat.iter (length deltas) (Binary64.onCanvasWheel (-1)) scale.
Proof.
  induction 1 as [| d deltas [Hd Hd'] _ IH]; intro scale; [reflexivity |].
  cbn [length]. rewrite Nat.iter_succ_r, <- IH.
  unfold Binary64.wheels. cbn [fold_left]. f_equal.
  unfold Binary64.onCanvasWheel. rewrite Hd, Hd'. reflexivity.
Qed.

(** X10: in binary64 a zoom-in followed by a zoom-out need not give the
    zoom factor back: from [0.2] it gives [0.20000000000000004], though from
    [1] it gives [1].  At [0.1] a zoom-out and at [10] a zoom-in change
    nothing.  From [1], any 200 events with [deltaY > 0] end at exactly
    [0.1] and any 200 events with [deltaY < 0] at exactly [10]. *)
Theorem wheel_round_trip :
  Binary64.onCanvasWheel 1 (Binary64.onCanvasWheel (-1) 0.2)
  = 0.20000000000000004%float /\
  Binary64.onCanvasWheel 1 (Binary64.onCanvasWheel (-1) 1) = 1%float /\
  Binary64.onCanvasWheel (-1) (Binary64.onCanvasWheel 1 1) = 1%float /\
  Binary64.onCanvasWheel 1 0.1 = 0.1%float /\
  Binary64.onCanvasWheel (-1) 10 = 10%float /\
  (forall deltas : list float,
      length deltas = 200%nat ->
      Forall (fun d => (0 <? d)%float = true) deltas ->
      Binary64.wheels deltas 1 = 0.1%float) /\
  (forall deltas : list float,
      length deltas = 200%nat ->
      Forall (fun d => (0 <? d)%float = false /\ (d <? 0)%float = true)
             deltas ->
      Binary64.wheels deltas 1 = 10%float).
Proof.
  do 5 (split; [vm_compute; reflexivity |]).
  split; intros deltas Hlen Hd.
  - rewrite (wheels64_out deltas Hd), Hlen. vm_compute. reflexivity.
  - rewrite (wheels64_in deltas Hd), Hlen. vm_compute. reflexivity.
Qed.

(** ** The page as a whole *)

Lemma handleMouseMove_changes (x y : Qc) (w : World) :
  mouseDown (state w) = true ->
  exists m,
    handleMouseMove x y w
    = Some (tt,
            mkWorld (set_lastMouse (Some x) (Some y)
                       (set_canvasRotationMatrix m (state w)))
                    (modelMatrix w) (stepSlider w) (xRotationSlider w)
                    (yRotationSlider w) (zRotationSlider w) (trace w)).
Proof.
  intro H. unfold handleMouseMove. rewrite get_state_bind, H. cbn [negb].
  eexists. reflexivity.
Qed.

(** What one input does to the world. *)
Lemma handle_effect (i : input) (w : World) :
  exists w',
    handle i w = Some (tt, w') /\
    match i with
    | mousedown x y =>
        state w' = set_lastMouse (Some x) (Some y) (set_mouseDown true (state w))
    | mouseup | mouseout => state w' = set_mouseDown false (state w)
    | mousemove x y =>
        (mouseDown (state w) = false /\ state w' = state w) \/
        (mouseDown (state w) = true /\
         exists m,
           state w' = set_lastMouse (Some x) (Some y)
                        (set_canvasRotationMatrix m (state w)))
    | wheel deltaY =>
        state w'
        = set_canvasScale
            (clamp_zoom
               (if ltb 0 deltaY then canvasScale (state w) - lit 1 10
                else if ltb deltaY 0 then canvasScale (state w) + lit 1 10
                else canvasScale (state w)))
            (state w)
    | xRotation_input v =>
        state w'
        = set_rotationSpeeds v (yRotationSlider w) (zRotationSlider w) (state w)
    | yRotation_input v =>
        state w'
        = set_rotationSpeeds (xRotationSlider w) v (zRotationSlider w) (state w)
    | zRotation_input v =>
        state w'
        = set_rotationSpeeds (xRotationSlider w) (yRotationSlider w) v (state w)
    | step_change _ => state w' = state w
    | frame => state w' = advanced (state w)
    end /\
    stepSlider w'
    = match i with step_change n => n | _ => stepSlider w end /\
    xRotationSlider w'
    = match i with xRotation_input v => v | _ => xRotationSlider w end /\
    yRotationSlider w'
    = match i with yRotation_input v => v | _ => yRotationSlider w end /\
    zRotationSlider w'
    = match i with zRotation_input v => v | _ => zRotationSlider w end.
Proof.
  destruct i as [x y | | | x y | d | v | v | v | n |]; cbn [handle].
  - eexists. split; [reflexivity |]. repeat split.
  - eexists. split; [reflexivity |]. repeat split.
  - eexists. split; [reflexivity |]. repeat split.
  - destruct (mouseDown (state w)) eqn:E.
    + destruct (handleMouseMove_changes x y w E) as (m & Hm).
      eexists. split; [exact Hm |]. world_simpl.
      split; [right; split; [reflexivity | exists m; reflexivity] |].
      repeat split.
    + exists w. split; [apply handleMouseMove_idle; exact E |].
      split; [left; split; reflexivity |]. repeat split.
  - eexists. split; [apply onCanvasWheel_run |]. repeat split.
  - eexists. split; [reflexivity |]. repeat split.
  - eexists. split; [reflexivity |]. repeat split.
  - eexists. split; [reflexivity |]. repeat split.
  - eexists. split; [reflexivity |]. repeat split.
  - exists (animated w). split; [apply animate_run |]. repeat split.
Qed.

Lemma run_cons (i : input) (inputs : list input) (w w1 : World) :
  handle i w = Some (tt, w1) -> run (i :: inputs) w = run inputs w1.
Proof.
  intro H. unfold run. cbn [for_].
  exact (bind_Some _ (fun _ => for_ inputs handle) w w1 tt H).
Qed.

Lemma handle_invariant (i : input) (w : World) :
  page_invariant w ->
  exists w', handle i w = Some (tt, w') /\ page_invariant w'.
Proof.
  intros (H1 & H2 & H3 & H4 & H5).
  destruct (handle_effect i w) as (w' & Hrun & He & _).
  exists w'. split; [exact Hrun |]. unfold page_invariant.
  destruct i as [x y | | | x y | d | v | v | v | n |].
  - rewrite He. state_simpl. do 4 (split; [assumption |]).
    intros _. split; discriminate.
  - rewrite He. state_simpl. do 4 (split; [assumption |]). discriminate.
  - rewrite He. state_simpl. do 4 (split; [assumption |]). discriminate.
  - destruct He as [[_ ->] | [_ (m & ->)]].
    + do 4 (split; [assumption |]). exact H5.
    + state_simpl. do 4 (split; [assumption |]). intros _. split; discriminate.
  - rewrite He. state_simpl.
    destruct (clamp_zoom_bounds
                (if ltb 0 d then canvasScale (state w) - lit 1 10
                 else if ltb d 0 then canvasScale (state w) + lit 1 10
                 else canvasScale (state w))) as [B1 B2].
    do 4 (split; [assumption |]). exact H5.
  - rewrite He. state_simpl. do 4 (split; [assumption |]). exact H5.
  - rewrite He. state_simpl. do 4 (split; [assumption |]). exact H5.
  - rewrite He. state_simpl. do 4 (split; [assumption |]). exact H5.
  - rewrite He. do 4 (split; [assumption |]). exact H5.
  - rewrite He. unfold advanced. state_simpl.
    do 4 (split; [assumption |]). exact H5.
Qed.

Lemma initial_invariant (steps : nat) : page_invariant (initial_world steps).
Proof.
  unfold page_invariant, initial_world, initial_state. world_simpl. state_simpl.
  split; [apply ltb_ge; reflexivity |].
  split; [apply ltb_ge; reflexivity |].
  split; [reflexivity |]. split; [reflexivity |]. discriminate.
Qed.

Lemma run_invariant (inputs : list input) :
  forall w, page_invariant w ->
            exists w', run inputs w = Some (tt, w') /\ page_invariant w'.
Proof.
  induction inputs as [| i inputs IH]; intros w Hw.
  - exists w. split; [reflexivity | exact Hw].
  - destruct (handle_invariant i w Hw) as (w1 & H1 & Hw1).
    destruct (IH w1 Hw1) as (w' & Hrun & Hw').
    exists w'. split; [rewrite (run_cons _ _ _ _ H1); exact Hrun | exact Hw'].
Qed.


(** X11: from the page as loaded, whatever inputs and frames follow, every
    one is handled (none fails) and the zoom factor stays within
    [[0.1, 10]]. *)
Theorem run_zoom_in_range (steps : nat) (inputs : list input) :
  exists w',
    run inputs (initial_world steps) = Some (tt, w') /\
    lit 1 10 <= canvasScale (state w') /\ canvasScale (state w') <= ofZ 10.
Proof.
  destruct (run_invariant inputs _ (initial_invariant steps))
    as (w' & Hrun & H1 & H2 & _).
  exists w'. auto.
Qed.

(** X12: from the page as loaded, whenever the button is down the last
    pointer position is recorded: a move never takes its delta from
    [null]. *)
Theorem run_drag_has_origin (steps : nat) (inputs : list input) :
  exists w',
    run inputs (initial_world steps) = Some (tt, w') /\
    (mouseDown (state w') = true ->
     exists lastX lastY,
       lastMouseX (state w') = Some lastX /\
       lastMouseY (state w') = Some lastY).
Proof.
  destruct (run_invariant inputs _ (initial_invariant steps))
    as (w' & Hrun & _ & _ & _ & _ & H5).
  exists w'. split; [exact Hrun |]. intro E. destruct (H5 E) as [Hx Hy].
  destruct (lastMouseX (state w')) as [lx |]; [| contradiction Hx; reflexivity].
  destruct (lastMouseY (state w')) as [ly |]; [| contradiction Hy; reflexivity].
  exists lx, ly. split; reflexivity.
Qed.

(** X13: no input and no frame changes the canvas size or the drag
    sensitivity, so the geometry of every later frame is that of the
    carpet at [(-1, -1)] with size [2] and the depth the step slider
    shows. *)
Theorem run_geometry_fixed (steps : nat) (inputs : list input) :
  exists w',
    run inputs (initial_world steps) = Some (tt, w') /\
    canvasSize (state w') = ofZ 2 /\
    dragSensitivity (state w') = lit 1 100 /\
    buffers (animate_events w')
    = flat_map (fun p => [vertices_of p; createCubeTextureCoordinates])
               (carpetCubes (- (1)) (- (1)) (ofZ 2) (stepSlider w')).
Proof.
  destruct (run_invariant inputs _ (initial_invariant steps))
    as (w' & Hrun & _ & _ & H3 & H4 & _).
  exists w'. split; [exact Hrun |]. split; [exact H3 |]. split; [exact H4 |].
  unfold animate_events. rewrite !buffers_app, H3.
  rewrite (proj1 (carpet_events_buffers _ _ _)).
  cbn [buffers app]. apply app_nil_r.
Qed.

Lemma zoom_only_wheel (inputs : list input) :
  forall w1 w2,
    canvasScale (state w1) = canvasScale (state w2) ->
    exists w1' w2',
      run inputs w1 = Some (tt, w1') /\
      run (filter is_wheel inputs) w2 = Some (tt, w2') /\
      canvasScale (state w1') = canvasScale (state w2').
Proof.
  induction inputs as [| i inputs IH]; intros w1 w2 E.
  - exists w1, w2. repeat split. exact E.
  - destruct (handle_effect i w1) as (v1 & R1 & He1 & _).
    rewrite (run_cons _ _ _ _ R1).
    destruct i as [x y | | | x y | d | v | v | v | n |]; cbn [filter is_wheel];
      try (apply IH; rewrite <- E;
           first [ rewrite He1; reflexivity
                 | destruct He1 as [[_ ->] | [_ (m & ->)]]; reflexivity ]).
    destruct (handle_effect (wheel d) w2) as (v2 & R2 & He2 & _).
    rewrite (run_cons _ _ _ _ R2). apply IH.
    rewrite He1, He2, E. reflexivity.
Qed.

(** X14: the zoom factor depends on the wheel events alone: dropping every
    other input and every frame from a run leaves it the same. *)
Theorem zoom_depends_on_wheel_only (inputs : list input) (w : World) :
  exists w1 w2,
    run inputs w = Some (tt, w1) /\
    run (filter is_wheel inputs) w = Some (tt, w2) /\
    canvasScale (state w1) = canvasScale (state w2).
Proof. apply zoom_only_wheel. reflexivity. Qed.

Lemma spin_only_sliders_and_frames (inputs : list input) :
  forall w1 w2,
    xRotationAngle (state w1) = xRotationAngle (state w2) ->
    yRotationAngle (state w1) = yRotationAngle (state w2) ->
    zRotationAngle (state w1) = zRotationAngle (state w2) ->
    xRotationSpeed (state w1) = xRotationSpeed (state w2) ->
    yRotationSpeed (state w1) = yRotationSpeed (state w2) ->
    zRotationSpeed (state w1) = zRotationSpeed (state w2) ->
    xRotationSlider w1 = xRotationSlider w2 ->
    yRotationSlider w1 = yRotationSlider w2 ->
    zRotationSlider w1 = zRotationSlider w2 ->
    exists w1' w2',
      run inputs w1 = Some (tt, w1') /\
      run (filter is_spin inputs) w2 = Some (tt, w2') /\
      xRotationAngle (state w1') = xRotationAngle (state w2') /\
      yRotationAngle (state w1') = yRotationAngle (state w2') /\
      zRotationAngle (state w1') = zRotationAngle (state w2').
Proof.
  induction inputs as [| i inputs IH];
    intros w1 w2 Ax Ay Az Sx Sy Sz Lx Ly Lz.
  - exists w1, w2. repeat split; assumption.
  - destruct (handle_effect i w1) as (v1 & R1 & He1 & _ & Hx1 & Hy1 & Hz1).
    destruct (handle_effect i w2) as (v2 & R2 & He2 & _ & Hx2 & Hy2 & Hz2).
    rewrite (run_cons _ _ _ _ R1).
    destruct i as [x y | | | x y | d | v | v | v | n |]; cbn [filter is_spin];
      try rewrite (run_cons _ _ _ _ R2).
    4: destruct He1 as [[_ He1] | [_ (m & He1)]].
    all: apply IH;
      rewrite ?Hx1, ?Hy1, ?Hz1, ?Hx2, ?Hy2, ?Hz2, ?He1, ?He2;
      unfold advanced; state_simpl; congruence.
Qed.

(** X15: the three spin angles depend on the rotation sliders and the
    frames alone: dropping every pointer, wheel and step-slider input from
    a run leaves them the same. *)
Theorem spin_depends_on_sliders_and_frames (inputs : list input) (w : World) :
  exists w1 w2,
    run inputs w = Some (tt, w1) /\
    run (filter is_spin inputs) w = Some (tt, w2) /\
    xRotationAngle (state w1) = xRotationAngle (state w2) /\
    yRotationAngle (state w1) = yRotationAngle (state w2) /\
    zRotationAngle (state w1) = zRotationAngle (state w2).
Proof. apply spin_only_sliders_and_frames; reflexivity. Qed.


(** ** Whole drags *)

Section Gestures.

Hypothesis hypot_y : Math_hypot 0 1 0 = 1.
Hypothesis hypot_x : Math_hypot 1 0 0 = 1.

Lemma moves_run (moves : list (Qc * Qc)) :
  forall (from : Qc * Qc) (w : World),
    mouseDown (state w) = true ->
    lastMouseX (state w) = Some (fst from) ->
    lastMouseY (state w) = Some (snd from) ->
    exists w',
      for_ moves (fun m => handleMouseMove (fst m) (snd m)) w = Some (tt, w') /\
      canvasRotationMatrix (state w')
      = drag_product (dragSensitivity (state w)) from moves
                     (canvasRotationMatrix (state w)) /\
      mouseDown (state w') = true /\
      canvasScale (state w') = canvasScale (state w) /\
      trace w' = trace w.
Proof.
  induction moves as [| m rest IH]; intros from w Hdown Hx Hy.
  - exists w. repeat split. exact Hdown.
  - pose proof (handleMouseMove_run hypot_y hypot_x (fst m) (snd m) w Hdown)
      as Hrun.
    rewrite Hx, Hy in Hrun. cbn [or_null] in Hrun.
    cbn [for_]. rewrite (bind_Some _ _ _ _ _ Hrun).
    match type of Hrun with _ = Some (tt, ?w1) =>
      destruct (IH m w1 Hdown eq_refl eq_refl)
        as (w' & Hrest & Hrot & Hd & Hs & Ht) end.
    exists w'. split; [exact Hrest |].
    split; [rewrite Hrot; reflexivity |].
    split; [exact Hd |]. split; [rewrite Hs; reflexivity | exact Ht].
Qed.

(** X16: a whole drag - press, any number of moves, release - leaves the
    product of the moves' increments, the latest on the left, times the
    rotation it found; every increment is taken from the difference to the
    position before, the first from the point of the press; the zoom and
    the trace are untouched. *)
Theorem drag_composes (from : Qc * Qc) (moves : list (Qc * Qc)) (w : World) :
  exists w',
    drag from moves w = Some (tt, w') /\
    canvasRotationMatrix (state w')
    = drag_product (dragSensitivity (state w)) from moves
                   (canvasRotationMatrix (state w)) /\
    mouseDown (state w') = false /\
    canvasScale (state w') = canvasScale (state w) /\
    trace w' = trace w.
Proof.
  unfold drag.
  set (w0 := mkWorld (set_lastMouse (Some (fst from)) (Some (snd from))
                        (set_mouseDown true (state w)))
                     (modelMatrix w) (stepSlider w) (xRotationSlider w)
                     (yRotationSlider w) (zRotationSlider w) (trace w)).
  assert (H0 : handleMouseDown (fst from) (snd from) w = Some (tt, w0))
    by reflexivity.
  destruct (moves_run moves from w0 eq_refl eq_refl eq_refl)
    as (w1 & H1 & Hrot & _ & Hs & Ht).
  eexists. split.
  - rewrite (bind_Some _ _ _ _ _ H0), (bind_Some _ _ _ _ _ H1).
    apply handleMouseUp_run.
  - world_simpl. state_simpl. rewrite Hrot, Hs, Ht. repeat split.
Qed.

Lemma rotation_only_pointer (inputs : list input) :
  forall w1 w2,
    mouseDown (state w1) = mouseDown (state w2) ->
    lastMouseX (state w1) = lastMouseX (state w2) ->
    lastMouseY (state w1) = lastMouseY (state w2) ->
    dragSensitivity (state w1) = dragSensitivity (state w2) ->
    canvasRotationMatrix (state w1) = canvasRotationMatrix (state w2) ->
    exists w1' w2',
      run inputs w1 = Some (tt, w1') /\
      run (filter is_pointer inputs) w2 = Some (tt, w2') /\
      canvasRotationMatrix (state w1') = canvasRotationMatrix (state w2').
Proof.
  induction inputs as [| i inputs IH]; intros w1 w2 Hd Hx Hy Hk Hr.
  - exists w1, w2. repeat split. exact Hr.
  - destruct (handle_effect i w1) as (v1 & R1 & He1 & _).
    destruct (handle_effect i w2) as (v2 & R2 & He2 & _).
    rewrite (run_cons _ _ _ _ R1).
    destruct i as [x y | | | x y | d | v | v | v | n |];
      cbn [filter is_pointer]; try rewrite (run_cons _ _ _ _ R2).
    4: { destruct (mouseDown (state w1)) eqn:E1.
         - pose proof (handleMouseMove_run hypot_y hypot_x x y w1 E1) as M1.
           pose proof (handleMouseMove_run hypot_y hypot_x x y w2
                         (eq_trans (eq_sym Hd) eq_refl)) as M2.
           cbn [handle] in R1, R2. rewrite M1 in R1. rewrite M2 in R2.
           injection R1 as <-. injection R2 as <-.
           apply IH; world_simpl; state_simpl; congruence.
         - assert (E2 : mouseDown (state w2) = false) by congruence.
           cbn [handle] in R1, R2.
           rewrite (handleMouseMove_idle x y w1 E1) in R1.
           rewrite (handleMouseMove_idle x y w2 E2) in R2.
           injection R1 as <-. injection R2 as <-.
           apply IH; congruence. }
    all: apply IH; rewrite ?He1, ?He2; unfold advanced; state_simpl;
      congruence.
Qed.

(** X17: the accumulated rotation depends on the pointer events alone:
    dropping every wheel and slider input and every frame from a run leaves
    it the same. *)
Theorem rotation_depends_on_pointer_only (inputs : list input) (w : World) :
  exists w1 w2,
    run inputs w = Some (tt, w1) /\
    run (filter is_pointer inputs) w = Some (tt, w2) /\
    canvasRotationMatrix (state w1) = canvasRotationMatrix (state w2).
Proof. apply rotation_only_pointer; reflexivity. Qed.

End Gestures.


(** ** Sliders and frames *)

Lemma run_frames (n : nat) : forall w, run (repeat frame n) w = ticks n w.
Proof.
  induction n as [| k IH]; intro w; [reflexivity |].
  cbn [repeat ticks]. rewrite (run_cons frame _ w _ (animate_run w)).
  rewrite (bind_Some _ _ _ _ _ (animate_run w)). apply IH.
Qed.

(** X20: an input on the X rotation slider makes [redraw] read all three
    sliders; each of the [n] frames that follow adds to each angle its
    slider's value over [200], whatever the speeds were before: [n]
    additions in a row, one per frame. *)
Theorem slider_sets_spin_rate (value : Qc) (n : nat) (w : World) :
  exists w',
    run (xRotation_input value :: repeat frame n) w = Some (tt, w') /\
    xRotationSpeed (state w') = value /\
    yRotationSpeed (state w') = yRotationSlider w /\
    zRotationSpeed (state w') = zRotationSlider w /\
    xRotationAngle (state w')
    = Nat.iter n (fun a => a + value / ofZ 200) (xRotationAngle (state w)) /\
    yRotationAngle (state w')
    = Nat.iter n (fun a => a + yRotationSlider w / ofZ 200)
               (yRotationAngle (state w)) /\
    zRotationAngle (state w')
    = Nat.iter n (fun a => a + zRotationSlider w / ofZ 200)
               (zRotationAngle (state w)).
Proof.
  destruct (handle_effect (xRotation_input value) w) as (w1 & R1 & He & _).
  destruct (ticks_run n w1) as (w' & Hrun & Sx & Sy & Sz & Ax & Ay & Az).
  exists w'. split.
  - rewrite (run_cons _ _ _ _ R1), run_frames. exact Hrun.
  - rewrite Sx, Sy, Sz, Ax, Ay, Az, He. state_simpl. repeat split.
Qed.

End Script.

(** * Worked examples *)

(** The sample worlds are reached from the page as loaded. *)
Lemma pressed_world_reached :
  handleMouseDown 0 0 (initial_world 1) = Some (tt, pressed_world).
Proof. reflexivity. Qed.

Lemma spinning_world_reached :
  redraw (mkWorld initial_state mat4_create 1 (ofZ 200) 0 0 [])
  = Some (tt, spinning_world).
Proof. reflexivity. Qed.

Lemma zoomed_world_reached :
  exists w,
    bind (animate cos_sample sin_sample)
         (fun _ => wheels (repeat (- (1)) 10)) (initial_world 1)
    = Some (tt, w) /\
    state w = state zoomed_world /\
    modelMatrix w = modelMatrix zoomed_world.
Proof.
  eexists. split; [vm_compute; reflexivity |].
  split.
  - cbn [state]. unfold zoomed_world, initial_state, set_canvasScale.
    cbn [state canvasSize xRotationSpeed yRotationSpeed zRotationSpeed
         xRotationAngle yRotationAngle zRotationAngle mouseDown lastMouseX
         lastMouseY dragSensitivity canvasRotationMatrix].
    f_equal; try reflexivity; apply Qc_is_canon; reflexivity.
  - apply mat4_eq; apply Qc_is_canon; reflexivity.
Qed.

Example carpet_depth_3 :
  length (carpetCubes (- (1)) (- (1)) (ofZ 2) 3) = 73%nat.
Proof. reflexivity. Qed.

(** The hypothesis of C1 at [iterations = 2]: nine cubes. *)
Lemma drawCarpet_count_witness :
  (1 <= 2)%nat /\
  exists w',
    drawCarpet cos_sample sin_sample (- (1)) (- (1)) (ofZ 2) 2 (initial_world 2)
    = Some (tt, w') /\
    count_drawArrays (trace w') = 9%nat.
Proof.
  split; [apply le_S, le_n |].
  destruct (drawCarpet_count cos_sample sin_sample (- (1)) (- (1)) (ofZ 2) 2
              (initial_world 2) (le_S 1 1 (le_n 1)))
    as (w' & Hrun & _ & Hcount & Hnine).
  exists w'. split; [exact Hrun |].
  rewrite Hcount, Hnine. reflexivity.
Defined.

(** C2 as stated fails in binary64: the one cube of
    [drawCarpet(-1, -1, 2, 1)] is centred at
    [(-2^-54, -2^-54, 0.3333333333333333)], which is not [(0, 0, 1/3)], and
    its side [0.6666666666666666] is not [2/3]. *)
Lemma final_level_center_counterexample :
  exists p,
    Binary64.carpetCubes (-1) (-1) 2 1 = [p] /\
    Binary64.value (Binary64.centerX p) = - lit 1 18014398509481984 /\
    Binary64.value (Binary64.centerY p) = - lit 1 18014398509481984 /\
    (Binary64.centerX p =? 0)%float = false /\
    (Binary64.centerY p =? 0)%float = false /\
    Binary64.values (Binary64.center p) <> (0, 0, lit 1 3) /\
    Binary64.value (Binary64.size p) <> lit 2 3.
Proof.
  eexists. split; [vm_compute; reflexivity |].
  cbn [Binary64.centerX Binary64.centerY Binary64.size Binary64.center
       Binary64.values].
  split; [apply Qc_compute_eq; vm_compute; reflexivity |].
  split; [apply Qc_compute_eq; vm_compute; reflexivity |].
  split; [vm_compute; reflexivity |]. split; [vm_compute; reflexivity |].
  split; intro H.
  - apply (f_equal (fun c : Qc * Qc * Qc => Qeq_bool (fst (fst c)) 0)) in H.
    vm_compute in H. discriminate H.
  - apply (f_equal (fun q : Qc => Qeq_bool q (lit 2 3))) in H.
    vm_compute in H. discriminate H.
Qed.

(** The hypothesis of C3 on the first cube of the carpet. *)
Lemma drawCube_modelMatrix_product_witness :
  cubeCenter (createCubeVertices 0 0 (lit 1 3) (lit 2 3))
  = Some (0, 0, lit 6667 20000) /\
  exists w',
    drawCube cos_sample sin_sample (createCubeVertices 0 0 (lit 1 3) (lit 2 3))
             (initial_world 1) = Some (tt, w') /\
    modelMatrix w' = mat4_create.
Proof.
  assert (Hc : cubeCenter (createCubeVertices 0 0 (lit 1 3) (lit 2 3))
               = Some (0, 0, lit 6667 20000)).
  { unfold cubeCenter, createCubeVertices, index. cbn [nth_error].
    do 3 f_equal; [f_equal |]; apply Qc_is_canon; vm_compute; reflexivity. }
  split; [exact Hc |].
  destruct (drawCube_modelMatrix_product cos_sample sin_sample _ _ _ _
              (initial_world 1) Hc) as (w' & Hrun & Hm & _).
  exists w'. split; [exact Hrun |].
  rewrite Hm. apply mat4_eq; apply Qc_is_canon; vm_compute; reflexivity.
Defined.

(** C3 as stated fails for the cube centred at [(0, 0, 1/3)] with side
    [2/3] once the X angle is [1]: the corners round to [0.3333], [-0.3333],
    [0.6667] and [0], the pivot is [(0, 0, 0.33335)], and the matrix
    [drawCube] builds about it is not the product about the centre of the
    placement.  The pivot is the same in binary64. *)
Lemma modelMatrix_about_center_counterexample :
  let p := mkPlacement 0 0 (lit 1 3) (lit 2 3) in
  let w := mkWorld (set_rotationAngles 1 0 0 initial_state)
                   mat4_create 1 0 0 0 [] in
  let s := state w in
  let about (c : vec3) :=
    let '(cx, cy, cz) := c in
    mat4_multiply (mat4_multiply (mat4_multiply (mat4_multiply (mat4_multiply
      (mat4_multiply (canvasRotationMatrix s)
         (Scale (canvasScale s, canvasScale s, canvasScale s)))
         (Translate (cx, cy, cz)))
         (RotX cos_table sin_table (xRotationAngle s)))
         (RotY cos_table sin_table (yRotationAngle s)))
         (RotZ cos_table sin_table (zRotationAngle s)))
         (Translate (- cx, - cy, - cz)) in
  center p = (0, 0, lit 1 3) /\
  cubeCenter (vertices_of p) = Some (0, 0, lit 6667 20000) /\
  (exists w',
      drawCube cos_table sin_table (vertices_of p) w = Some (tt, w') /\
      modelMatrix w' = about (0, 0, lit 6667 20000) /\
      modelMatrix w' <> about (center p) /\
      e13 (modelMatrix w') = lit 6667 20000 * sin_table 1 /\
      e13 (about (center p)) = lit 1 3 * sin_table 1) /\
  Binary64.pivot (Binary64.mkPlacement 0 0 (1 / 3) (2 / 3))
  = (0, 0, 0.33335)%float.
Proof.
  cbv zeta.
  split; [reflexivity |].
  split.
  { unfold vertices_of, cubeCenter, createCubeVertices, index.
    cbn [nth_error centerX centerY centerZ size].
    apply (f_equal Some).
    apply (f_equal2 pair); [apply (f_equal2 pair) |];
      apply Qc_compute_eq; vm_compute; reflexivity. }
  split; [| vm_compute; reflexivity].
  eexists. split; [vm_compute; reflexivity |].
  split; [apply mat4_eq; apply Qc_compute_eq; vm_compute; reflexivity |].
  split; [| split; apply Qc_compute_eq; vm_compute; reflexivity].
  intro H.
  apply (f_equal (fun m : mat4 =>
                    Qeq_bool (e13 m) (lit 6667 20000 * sin_table 1))) in H.
  vm_compute in H. discriminate H.
Qed.

(** C4 as stated fails on the very first frame: no spin angle is written
    before the frame buffer is cleared; the clear comes first. *)
Lemma animate_advance_before_clear_counterexample :
  exists w',
    animate cos_sample sin_sample (initial_world 1) = Some (tt, w') /\
    occurs_before is_write_rotationAngle is_clear (trace w') = false /\
    occurs_before is_clear is_write_rotationAngle (trace w') = true.
Proof.
  exists (animated cos_sample sin_sample (initial_world 1)).
  split; [apply animate_run |].
  split; vm_compute; reflexivity.
Qed.

(** The hypotheses of C5: the button is down, the two axes have length
    one; two moves, by [(3, 4)] and then by [(-1, 2)]. *)
Lemma drag_rotation_left_multiply_witness :
  hypot_sample 0 1 0 = 1 /\
  hypot_sample 1 0 0 = 1 /\
  mouseDown (state pressed_world) = true /\
  exists w2,
    bind (handleMouseMove cos_sample sin_sample hypot_sample (ofZ 3) (ofZ 4))
         (fun _ =>
            handleMouseMove cos_sample sin_sample hypot_sample (ofZ 2) (ofZ 6))
         pressed_world
    = Some (tt, w2) /\
    canvasRotationMatrix (state w2) = mat4_create.
Proof.
  assert (Hy : hypot_sample 0 1 0 = 1) by (apply Qc_is_canon; reflexivity).
  assert (Hx : hypot_sample 1 0 0 = 1) by (apply Qc_is_canon; reflexivity).
  split; [exact Hy |]. split; [exact Hx |]. split; [reflexivity |].
  destruct (drag_rotation_left_multiply cos_sample sin_sample hypot_sample
              Hy Hx (ofZ 3) (ofZ 4) (ofZ 2) (ofZ 6) pressed_world eq_refl)
    as (_ & w2 & Hrun & Hm & _).
  exists w2. split; [exact Hrun |].
  rewrite Hm. apply mat4_eq; apply Qc_is_canon; vm_compute; reflexivity.
Defined.


(** The hypotheses of C7: the X speed is [200], one tick; a thousand ticks
    in binary64. *)
Lemma spin_advance_witness :
  xRotationSpeed (state spinning_world) = ofZ 200 /\
  (1000 <= 1000)%nat /\
  (exists w',
      animate cos_sample sin_sample spinning_world = Some (tt, w') /\
      xRotationAngle (state w') = 1) /\
  Binary64.value (Binary64.ticks 1000 0 200) = ofZ 1000.
Proof.
  destruct (spin_advance cos_sample sin_sample)
    as (H1 & _ & _ & _ & _ & H6 & _).
  split; [reflexivity |]. split; [apply le_n |]. split.
  - destruct (H1 spinning_world) as (w' & Hrun & _ & _ & _ & _ & _ & _ & H200).
    exists w'. split; [exact Hrun |].
    rewrite (H200 eq_refl). apply Qc_is_canon. reflexivity.
  - exact (H6 1000%nat (le_n 1000)).
Defined.

(** C7 as stated fails in binary64: ten ticks at speed [20] from angle [0]
    add [0.9999999999999999], which is [1 - 2^-53], and not
    [10 * 20 / 200 = 1]. *)
Lemma spin_advance_rounds_counterexample :
  Binary64.ticks 10 0 20 = 0.9999999999999999%float /\
  Binary64.value (Binary64.ticks 10 0 20) = 1 - lit 1 9007199254740992 /\
  Binary64.value (Binary64.ticks 10 0 20)
  <> Binary64.value 0 + ofZ 10 * (ofZ 20 / ofZ 200) /\
  ofZ 10 * (ofZ 20 / ofZ 200) = 1 /\
  (Binary64.ticks 10 0 20 =? 1)%float = false.
Proof.
  assert (E : Binary64.value (Binary64.ticks 10 0 20)
              = 1 - lit 1 9007199254740992) by (apply Qc_compute_eq; vm_compute; reflexivity).
  split; [vm_compute; reflexivity |]. split; [exact E |].
  split; [| split; [apply Qc_compute_eq; vm_compute; reflexivity | vm_compute; reflexivity]].
  rewrite E. intro H.
  apply (f_equal (fun q : Qc => Qeq_bool q 1)) in H.
  vm_compute in H. discriminate H.
Qed.

(** The hypothesis of C8 at three iterations: 73 cubes, no two of them at
    the same centre. *)
Lemma carpet_centers_distinct_witness :
  (3 <= 6)%nat /\
  length (Binary64.page 3) = 73%nat /\
  NoDup (map (fun p => Binary64.values (Binary64.center p)) (Binary64.page 3)).
Proof.
  assert (Hle : (3 <= 6)%nat) by (apply Nat.leb_le; reflexivity).
  destruct (carpet_centers_distinct cos_sample sin_sample) as (_ & Hlen & H).
  split; [exact Hle |]. split.
  - exact (Hlen (-1)%float (-1)%float 2%float 2%nat).
  - exact (proj1 (H 3%nat Hle)).
Defined.

(** C8 as stated fails in binary64: with origin [(1, 1)] and the positive
    size [1e-17] the sums [1 + i * newSize] all round to [1], and of the
    nine cubes of two iterations the eight of the outer cells share one
    centre. *)
Lemma carpet_centers_collide_counterexample :
  (0 <? 1e-17)%float = true /\
  length (Binary64.carpetCubes 1 1 1e-17 2) = 9%nat /\
  map Binary64.center (Binary64.carpetCubes 1 1 1e-17 2)
  = [ (1, 1, 5.5555555555555565e-19); (1, 1, 5.5555555555555565e-19);
      (1, 1, 5.5555555555555565e-19); (1, 1, 5.5555555555555565e-19);
      (1, 1, 1.6666666666666669e-18);
      (1, 1, 5.5555555555555565e-19); (1, 1, 5.5555555555555565e-19);
      (1, 1, 5.5555555555555565e-19); (1, 1, 5.5555555555555565e-19) ]%float /\
  exists p q,
    nth_error (Binary64.carpetCubes 1 1 1e-17 2) 0 = Some p /\
    nth_error (Binary64.carpetCubes 1 1 1e-17 2) 1 = Some q /\
    Binary64.center p = Binary64.center q.
Proof.
  split; [vm_compute; reflexivity |]. split; [reflexivity |].
  split; [vm_compute; reflexivity |].
  do 2 eexists. split; [vm_compute; reflexivity |].
  split; vm_compute; reflexivity.
Qed.

(** The hypotheses of C9: the first cube drawn twice on the zoomed page,
    whose [modelMatrix] is invertible. *)
Lemma normalMatrix_from_previous_call_witness :
  let v := createCubeVertices 0 0 (lit 1 3) (lit 2 3) in
  let c := pivot (mkPlacement 0 0 (lit 1 3) (lit 2 3)) in
  cubeCenter v = Some c /\
  mat4_determinant (modelMatrix zoomed_world) <> 0 /\
  cos_sample 0 = 1 /\ sin_sample 0 = 0 /\
  mat4_multiply (modelMatrix zoomed_world)
                (mat4_invert mat4_create (modelMatrix zoomed_world))
  = mat4_create /\
  exists w',
    drawCube cos_sample sin_sample v zoomed_world = Some (tt, w') /\
    uploads uNormalMatrix (trace w')
    = [mat4_transpose (mat4_invert mat4_create mat4_create)] /\
    mat4_transpose (mat4_invert mat4_create mat4_create)
    <> mat4_transpose (mat4_invert mat4_create (modelMatrix w')).
Proof.
  intros v c.
  assert (Hc : cubeCenter v = Some c) by reflexivity.
  assert (Hd : mat4_determinant (modelMatrix zoomed_world) <> 0).
  { intro H. apply (f_equal (fun q : Qc => Qeq_bool q 0)) in H.
    vm_compute in H. discriminate H. }
  destruct (normalMatrix_from_previous_call cos_sample sin_sample v v c c
              zoomed_world Hc Hc) as (_ & Hinv & _ & _ & Hex).
  destruct (Hex eq_refl eq_refl) as (_ & w' & Hrun & Hn & _ & Hne).
  split; [exact Hc |]. split; [exact Hd |].
  split; [reflexivity |]. split; [reflexivity |].
  split; [exact (Hinv Hd) |].
  exists w'. split; [exact Hrun |]. split; [exact Hn | exact Hne].
Defined.

(** The hypotheses of C10: the six entries of the vertex array of a cube
    whose corners have four decimals, which the rounding leaves alone; the
    first cube of the page. *)
Lemma pivot_rounded_midpoint_witness :
  let v := createCubeVertices 0 0 0 (ofZ 2) in
  let p := Binary64.mkPlacement (-5.551115123125783e-17)
             (-5.551115123125783e-17) 0.3333333333333333
             0.6666666666666666 in
  nth_error v 0 = Some (- (1)) /\ nth_error v 1 = Some (- (1)) /\
  nth_error v 2 = Some 1 /\ nth_error v 24 = Some 1 /\
  nth_error v 25 = Some 1 /\ nth_error v 26 = Some (- (1)) /\
  round4 1 = 1 /\ round4 (- (1)) = - (1) /\
  cubeCenter v = Some (0, 0, 0) /\
  (1 <= 20)%nat /\ In p (Binary64.page 1) /\
  Binary64.pivot p = (0, 0, 0.33335)%float /\
  Binary64.values (Binary64.pivot p) <> Binary64.values (Binary64.center p).
Proof.
  intros v p.
  destruct (pivot_rounded_midpoint cos_sample sin_sample)
    as (P1 & _ & _ & _ & _ & P6).
  assert (E0 : nth_error v 0 = Some (- (1)))
    by (cbn [v createCubeVertices nth_error]; f_equal;
        apply Qc_compute_eq; vm_compute; reflexivity).
  assert (E2 : nth_error v 2 = Some 1)
    by (cbn [v createCubeVertices nth_error]; f_equal;
        apply Qc_compute_eq; vm_compute; reflexivity).
  assert (E1 : nth_error v 1 = Some (- (1))) by exact E0.
  assert (E24 : nth_error v 24 = Some 1) by exact E2.
  assert (E25 : nth_error v 25 = Some 1) by exact E2.
  assert (E26 : nth_error v 26 = Some (- (1))) by exact E0.
  assert (Rp : round4 1 = 1) by (apply Qc_compute_eq; vm_compute; reflexivity).
  assert (Rm : round4 (- (1)) = - (1))
    by (apply Qc_compute_eq; vm_compute; reflexivity).
  assert (Hle : (1 <= 20)%nat) by (apply Nat.leb_le; reflexivity).
  assert (Hin : In p (Binary64.page 1)) by (left; vm_compute; reflexivity).
  do 6 (split; [assumption |]). split; [exact Rp |]. split; [exact Rm |].
  split; [| split; [exact Hle |]; split; [exact Hin |]; split].
  - destruct (P1 v _ _ _ _ _ _ (initial_world 1) E0 E1 E2 E24 E25 E26)
      as (_ & Hmid & _).
    rewrite (Hmid Rm Rm Rp Rp Rp Rm).
    apply (f_equal Some).
    apply (f_equal2 pair); [apply (f_equal2 pair) |];
      apply Qc_compute_eq; vm_compute; reflexivity.
  - vm_compute. reflexivity.
  - exact (proj2 (P6 1%nat p Hle Hin)).
Defined.

(** C10 as stated fails where it says "exactly when": the cube centred at
    the origin with side [2/3] has its pivot at its centre, although none of
    its corner coordinates, [1/3] and [-1/3], is a multiple of [1/10000] or
    left alone by the rounding; the two errors cancel.  So it is in
    binary64, and so it is in exact arithmetic. *)
Lemma pivot_equals_center_counterexample :
  let p := Binary64.mkPlacement 0 0 0 (2 / 3) in
  Binary64.cubeCenter (Binary64.vertices_of p) = Some (0, 0, 0)%float /\
  Binary64.pivot p = Binary64.center p /\
  nth_error (Binary64.vertices_of p) 0 = Some (-0.3333333333333333)%float /\
  nth_error (Binary64.vertices_of p) 1 = Some (-0.3333333333333333)%float /\
  nth_error (Binary64.vertices_of p) 2 = Some 0.3333333333333333%float /\
  nth_error (Binary64.vertices_of p) 24 = Some 0.3333333333333333%float /\
  nth_error (Binary64.vertices_of p) 25 = Some 0.3333333333333333%float /\
  nth_error (Binary64.vertices_of p) 26 = Some (-0.3333333333333333)%float /\
  Binary64.round4 0.3333333333333333 = 0.3333%float /\
  Binary64.round4 (-0.3333333333333333) = (-0.3333)%float /\
  ~ multiple_of_1e4 (Binary64.value 0.3333333333333333) /\
  ~ multiple_of_1e4 (Binary64.value (-0.3333333333333333)) /\
  cubeCenter (createCubeVertices 0 0 0 (lit 2 3)) = Some (0, 0, 0) /\
  round4 (lit 1 3) = lit 3333 10000 /\
  round4 (- lit 1 3) = - lit 3333 10000 /\
  ~ multiple_of_1e4 (lit 1 3) /\ ~ multiple_of_1e4 (- lit 1 3).
Proof.
  assert (N : forall q r : Qc,
             round4 q = r -> Qeq_bool r q = false -> ~ multiple_of_1e4 q).
  { intros q r Hr Hne Hm. apply round4_fixed in Hm. rewrite Hm in Hr.
    subst r. rewrite (proj2 (Qeq_bool_iff q q) (Qeq_refl q)) in Hne.
    discriminate Hne. }
  assert (Rp : round4 (lit 1 3) = lit 3333 10000)
    by (apply Qc_compute_eq; vm_compute; reflexivity).
  assert (Rm : round4 (- lit 1 3) = - lit 3333 10000)
    by (apply Qc_compute_eq; vm_compute; reflexivity).
  cbv zeta.
  do 10 (split; [vm_compute; reflexivity |]).
  split; [apply (N _ (lit 3333 10000));
          [apply Qc_compute_eq | ]; vm_compute; reflexivity |].
  split; [apply (N _ (- lit 3333 10000));
          [apply Qc_compute_eq | ]; vm_compute; reflexivity |].
  split.
  - unfold cubeCenter, createCubeVertices, index. cbn [nth_error].
    apply (f_equal Some).
    apply (f_equal2 pair); [apply (f_equal2 pair) |];
      apply Qc_compute_eq; vm_compute; reflexivity.
  - split; [exact Rp |]. split; [exact Rm |].
    split; [exact (N _ _ Rp eq_refl) | exact (N _ _ Rm eq_refl)].
Qed.

(** The hypotheses of X4 on the first cube of the page. *)
Lemma carpet_cube_placement_witness :
  let p := Binary64.mkPlacement (-5.551115123125783e-17)
             (-5.551115123125783e-17) 0.3333333333333333
             0.6666666666666666 in
  (1 <= 6)%nat /\ In p (Binary64.page 1) /\
  Binary64.size p = (2 / 3)%float /\
  0 < Binary64.value (Binary64.size p) /\
  Binary64.value (Binary64.centerX p)
  + Binary64.value (Binary64.size p) / ofZ 2 <= 1.
Proof.
  intro p.
  assert (Hle : (1 <= 6)%nat) by (apply Nat.leb_le; reflexivity).
  assert (Hin : In p (Binary64.page 1)) by (left; vm_compute; reflexivity).
  destruct carpet_cube_placement as (H1 & H2).
  destruct (H2 1%nat p Hle Hin) as (Hpos & _ & _ & Hx & _).
  split; [exact Hle |]. split; [exact Hin |].
  split; [vm_compute; reflexivity |]. split; [exact Hpos | exact Hx].
Defined.

(** The hypotheses of X6 on the same cube: its pivot is [(0, 0, 0.33335)],
    less than [0.00005] above its centre. *)
Lemma pivot_error_witness :
  let p := Binary64.mkPlacement (-5.551115123125783e-17)
             (-5.551115123125783e-17) 0.3333333333333333
             0.6666666666666666 in
  (1 <= 6)%nat /\ In p (Binary64.page 1) /\
  Binary64.pivot p = (0, 0, 0.33335)%float /\
  Binary64.value 0.33335 <= Binary64.value (Binary64.centerZ p) + lit 1 20000.
Proof.
  intro p.
  assert (Hle : (1 <= 6)%nat) by (apply Nat.leb_le; reflexivity).
  assert (Hin : In p (Binary64.page 1)) by (left; vm_compute; reflexivity).
  split; [exact Hle |]. split; [exact Hin |].
  split; [vm_compute; reflexivity |].
  pose proof (proj1 pivot_error 1%nat p Hle Hin) as H.
  change (Binary64.pivot p) with (0, 0, 0.33335)%float in H.
  exact (proj2 (proj2 (proj2 (proj2 (proj2 H))))).
Defined.

(** The hypothesis of X9: the page as loaded has the button up. *)
Lemma moves_after_release_witness :
  mouseDown (state (initial_world 1)) = false /\
  handleMouseMove cos_sample sin_sample hypot_sample (ofZ 3) (ofZ 4)
                  (initial_world 1)
  = Some (tt, initial_world 1).
Proof.
  split; [reflexivity |].
  exact (proj1 (moves_after_release cos_sample sin_sample hypot_sample)
               (ofZ 3) (ofZ 4) (initial_world 1) eq_refl).
Defined.

(** The hypotheses of X10: 200 events with [deltaY = 100], and 200 with
    [deltaY = -100]. *)
Lemma wheel_round_trip_witness :
  length (repeat 100%float 200) = 200%nat /\
  Forall (fun d => (0 <? d)%float = true) (repeat 100%float 200) /\
  Forall (fun d => (0 <? d)%float = false /\ (d <? 0)%float = true)
         (repeat (-100)%float 200) /\
  Binary64.wheels (repeat 100%float 200) 1 = 0.1%float /\
  Binary64.wheels (repeat (-100)%float 200) 1 = 10%float.
Proof.
  assert (Hout : Forall (fun d => (0 <? d)%float = true)
                        (repeat 100%float 200)).
  { apply Forall_forall. intros d Hd. apply repeat_spec in Hd.
    rewrite Hd. reflexivity. }
  assert (Hin : Forall (fun d => (0 <? d)%float = false /\
                                (d <? 0)%float = true)
                       (repeat (-100)%float 200)).
  { apply Forall_forall. intros d Hd. apply repeat_spec in Hd.
    rewrite Hd. split; reflexivity. }
  destruct wheel_round_trip as (_ & _ & _ & _ & _ & H6 & H7).
  split; [apply repeat_length |]. split; [exact Hout |].
  split; [exact Hin |]. split.
  - exact (H6 _ (repeat_length _ _) Hout).
  - exact (H7 _ (repeat_length _ _) Hin).
Defined.

(** The hypothesis of X12: after a press the button is down. *)
Lemma run_drag_has_origin_witness :
  exists w',
    run cos_sample sin_sample hypot_sample [mousedown (ofZ 3) (ofZ 4)]
        (initial_world 1) = Some (tt, w') /\
    mouseDown (state w') = true /\
    lastMouseX (state w') = Some (ofZ 3) /\ lastMouseY (state w') = Some (ofZ 4).
Proof.
  destruct (run_drag_has_origin cos_sample sin_sample hypot_sample 1
              [mousedown (ofZ 3) (ofZ 4)]) as (w' & Hrun & Hdown).
  exists w'. split; [exact Hrun |].
  assert (E : w' = mkWorld (set_lastMouse (Some (ofZ 3)) (Some (ofZ 4))
                              (set_mouseDown true initial_state))
                           mat4_create 1 0 0 0 []).
  { assert (H : Some (tt, w')
                = Some (tt, mkWorld (set_lastMouse (Some (ofZ 3)) (Some (ofZ 4))
                                       (set_mouseDown true initial_state))
                                    mat4_create 1 0 0 0 []))
      by (rewrite <- Hrun; reflexivity).
    injection H as H. exact H. }
  assert (Hd : mouseDown (state w') = true) by (rewrite E; reflexivity).
  split; [exact Hd |].
  destruct (Hdown Hd) as (lx & ly & Hx & Hy).
  rewrite E. split; reflexivity.
Defined.

(** The hypotheses of X16 to X19 hold of the sample functions. *)
Lemma drag_composes_witness :
  hypot_sample 0 1 0 = 1 /\ hypot_sample 1 0 0 = 1 /\
  exists w',
    drag cos_sample sin_sample hypot_sample (0, 0)
         [(ofZ 3, ofZ 4); (ofZ 2, ofZ 6)] (initial_world 1)
    = Some (tt, w') /\
    mouseDown (state w') = false.
Proof.
  assert (Hy : hypot_sample 0 1 0 = 1) by (apply Qc_is_canon; reflexivity).
  assert (Hx : hypot_sample 1 0 0 = 1) by (apply Qc_is_canon; reflexivity).
  split; [exact Hy |]. split; [exact Hx |].
  destruct (drag_composes cos_sample sin_sample hypot_sample Hy Hx (0, 0)
              [(ofZ 3, ofZ 4); (ofZ 2, ofZ 6)] (initial_world 1))
    as (w' & Hrun & _ & Hd & _).
  exists w'. split; [exact Hrun | exact Hd].
Defined.

Lemma rotation_depends_on_pointer_only_witness :
  hypot_sample 0 1 0 = 1 /\ hypot_sample 1 0 0 = 1 /\
  exists w1 w2,
    run cos_sample sin_sample hypot_sample
        [mousedown 0 0; wheel 1; mousemove (ofZ 3) (ofZ 4); frame; mouseup]
        (initial_world 1) = Some (tt, w1) /\
    run cos_sample sin_sample hypot_sample
        [mousedown 0 0; mousemove (ofZ 3) (ofZ 4); mouseup]
        (initial_world 1) = Some (tt, w2) /\
    canvasRotationMatrix (state w1) = canvasRotationMatrix (state w2).
Proof.
  assert (Hy : hypot_sample 0 1 0 = 1) by (apply Qc_is_canon; reflexivity).
  assert (Hx : hypot_sample 1 0 0 = 1) by (apply Qc_is_canon; reflexivity).
  split; [exact Hy |]. split; [exact Hx |].
  exact (rotation_depends_on_pointer_only cos_sample sin_sample hypot_sample
           Hy Hx
           [mousedown 0 0; wheel 1; mousemove (ofZ 3) (ofZ 4); frame; mouseup]
           (initial_world 1)).
Defined.

